(** * my-flask-api: the daily-reading service of [app.py]

    A shallow embedding of [src/app.py] and the properties of its
    reference parser ([parse_bible_text]), its calendar scraper
    ([get_qt_schedule]) and its date resolver ([timestamp_to_qt_data_ms],
    [get_qt_bible_data]).

    Conventions of the embedding.
    - A Python [str] is a list of Unicode code points ([list N]); the
      literals of the source are written [U "..."] and decoded from UTF-8.
    - Python integers are [Z].  The interpreter's limit on the number of
      digits [int()] converts (PYTHONINTMAXSTRDIGITS, 4300 unless set
      otherwise) is a parameter of the embedding: beyond it [int] raises
      [ValueError].
    - [print] is modelled by a log of [event]s: the output stream is taken
      to accept every text, so a [print] never raises.  Exceptions are
      modelled by [Raised].
    - [re], [str] methods, [dict], [sorted] and the BeautifulSoup queries are
      modelled by the functions of the sections named after them. *)

From Stdlib Require Import String Ascii NArith ZArith List Bool Lia.
From Stdlib Require Import Sorted Permutation.
Import ListNotations.

Set Implicit Arguments.

(* ================================================================= *)
(** * Python strings *)

Definition str := list N.

(** UTF-8 decoding of a source literal: [acc] holds the bits read so far of
    a multi-byte sequence and [pend] the continuation bytes still expected. *)
Fixpoint utf8_decode (acc : N) (pend : nat) (bs : list N) : str :=
  match bs with
  | [] => []
  | b :: bs' =>
      match pend with
      | O =>
          if (b <? 128)%N then b :: utf8_decode 0 0 bs'
          else if (b <? 224)%N then utf8_decode (b - 192) 1 bs'
          else if (b <? 240)%N then utf8_decode (b - 224) 2 bs'
          else utf8_decode (b - 240) 3 bs'
      | S O => (acc * 64 + (b - 128))%N :: utf8_decode 0 0 bs'
      | S p => utf8_decode (acc * 64 + (b - 128)) p bs'
      end
  end.

Definition U (s : string) : str :=
  utf8_decode 0 0 (map N_of_ascii (list_ascii_of_string s)).

Definition str_eqb (a b : str) : bool :=
  if list_eq_dec N.eq_dec a b then true else false.

(** The interpreter's Unicode tables and limits.  Whitespace
    ([Py_UNICODE_ISSPACE], used by [str.strip], [str.split] and the pattern
    class [\s]) is the fixed list below.  The decimal digits
    ([Py_UNICODE_TODECIMAL], used by the pattern class [\d] and by [int])
    are the ASCII digits together with the digits of other scripts, which
    vary with the Unicode version of the interpreter: that part of the
    table is a parameter, [nd_digit].  [int_max_str_digits] is
    [sys.get_int_max_str_digits()], the largest number of digits [int]
    converts: 4300 unless set otherwise, and 0 for no limit. *)
Class Interpreter := {
  nd_digit : N -> option N;
  int_max_str_digits : nat
}.

Definition isspace (c : N) : bool :=
  ((9 <=? c) && (c <=? 13) || (28 <=? c) && (c <=? 32)
   || (c =? 0x85) || (c =? 0xA0) || (c =? 0x1680)
   || (0x2000 <=? c) && (c <=? 0x200A)
   || (c =? 0x2028) || (c =? 0x2029) || (c =? 0x202F)
   || (c =? 0x205F) || (c =? 0x3000))%N.

(** The Hangul syllables block, the class [[가-힣]] of the patterns. *)
Definition is_hangul (c : N) : bool := ((0xAC00 <=? c) && (c <=? 0xD7A3))%N.

Section Text.
Context {py : Interpreter}.

(** No Hangul syllable and no whitespace character is a decimal digit, in
    any version of the tables; [nd_digit] is consulted for the rest. *)
Definition todecimal (c : N) : option N :=
  if (c <? 128)%N then
    if ((48 <=? c) && (c <=? 57))%N then Some (c - 48)%N else None
  else if is_hangul c || isspace c then None
  else nd_digit c.

Definition isdecimal (c : N) : bool :=
  match todecimal c with Some _ => true | None => false end.

(** ** [str] methods *)

Fixpoint lstrip_with (sp : N -> bool) (s : str) : str :=
  match s with
  | c :: s' => if sp c then lstrip_with sp s' else s
  | [] => []
  end.

Definition strip_with (sp : N -> bool) (s : str) : str :=
  rev (lstrip_with sp (rev (lstrip_with sp s))).

(** [s.strip()] *)
Definition strip (s : str) : str := strip_with isspace s.

Fixpoint starts_with (p s : str) : bool :=
  match p, s with
  | [], _ => true
  | a :: p', b :: s' => (a =? b)%N && starts_with p' s'
  | _ :: _, [] => false
  end.

(** [s.replace(old, new)] for a non-empty [old]: occurrences are replaced
    from the left and do not overlap; [skip] counts the characters of an
    occurrence that are still to be passed over. *)
Fixpoint replace_from (old new : str) (skip : nat) (s : str) : str :=
  match s with
  | [] => []
  | c :: s' =>
      match skip with
      | S n => replace_from old new n s'
      | O =>
          if starts_with old s
          then new ++ replace_from old new (length old - 1) s'
          else c :: replace_from old new 0 s'
      end
  end.

Definition replace (old new s : str) : str := replace_from old new 0 s.

(** [s.split()]: the maximal runs of non-whitespace characters. *)
Fixpoint split_from (cur : str) (s : str) : list str :=
  match s with
  | [] => match cur with [] => [] | _ => [rev cur] end
  | c :: s' =>
      if isspace c
      then match cur with [] => split_from [] s' | _ => rev cur :: split_from [] s' end
      else split_from (c :: cur) s'
  end.

Definition split (s : str) : list str := split_from [] s.

(** ** [int(s)] in base ten

    Surrounding whitespace is dropped (the ASCII characters 9-13 and 32, and
    the non-ASCII whitespace), one sign is allowed, and the digits may be
    separated by single underscores.  A text of more than
    [int_max_str_digits] digits (leading zeros counted, underscores, sign
    and whitespace not) is refused; the interpreter applies the limit only
    past 640 digits and not at all when it is 0.  [None] stands for
    [ValueError]. *)
Definition int_isspace (c : N) : bool :=
  if (c <? 127)%N then ((9 <=? c) && (c <=? 13) || (c =? 32))%N else isspace c.

Fixpoint int_digits (acc : N) (after_underscore : bool) (s : str) : option N :=
  match s with
  | [] => if after_underscore then None else Some acc
  | c :: s' =>
      if (c =? 95)%N then
        if after_underscore then None else int_digits acc true s'
      else
        match todecimal c with
        | Some d => int_digits (10 * acc + d)%N false s'
        | None => None
        end
  end.

Definition over_limit (digits : nat) : bool :=
  Nat.ltb 640 digits && Nat.ltb 0 int_max_str_digits
  && Nat.ltb int_max_str_digits digits.

Definition count_digits (s : str) : nat :=
  length (filter (fun c => negb (c =? 95)%N) s).

(** The digits after the sign: their value, unless they are too many. *)
Definition int_unsigned (s : str) : option N :=
  match int_digits 0 true s with
  | Some n => if over_limit (count_digits s) then None else Some n
  | None => None
  end.

Definition int (s : str) : option Z :=
  match strip_with int_isspace s with
  | [] => None
  | c :: t =>
      if (c =? 43)%N then option_map Z.of_N (int_unsigned t)
      else if (c =? 45)%N then option_map (fun n => (- Z.of_N n)%Z) (int_unsigned t)
      else option_map Z.of_N (int_unsigned (c :: t))
  end.

(* ================================================================= *)
(** * The [re] module: a backtracking matcher

    The fragment of the pattern language the two patterns use: character
    sets, greedy repetition of a set, greedy option, sequence and numbered
    capture groups. *)

Inductive charset :=
| Lit (c : N)           (* a literal character *)
| Range (lo hi : N)     (* [lo-hi] *)
| AnyOf (cs : list N)   (* [abc] *)
| Digit                 (* \d *)
| Space.                (* \s *)

Definition in_set (cs : charset) (c : N) : bool :=
  match cs with
  | Lit a => (c =? a)%N
  | Range lo hi => ((lo <=? c) && (c <=? hi))%N
  | AnyOf l => existsb (N.eqb c) l
  | Digit => isdecimal c
  | Space => isspace c
  end.

Inductive regex :=
| Chr (cs : charset)              (* one character of the set *)
| Rep (cs : charset) (min : nat)  (* cs* when min = 0, cs+ when min = 1 *)
| Opt (r : regex)                 (* r? *)
| Seq (r1 r2 : regex)
| Group (i : nat) (r : regex).    (* the i-th parenthesis *)

(** The text of the groups that took part in a match, latest first. *)
Definition captures := list (nat * str).

Fixpoint cap_get (caps : captures) (i : nat) : option str :=
  match caps with
  | [] => None
  | (j, w) :: caps' => if Nat.eqb i j then Some w else cap_get caps' i
  end.

Section Backtracking.
Variable A : Type.

(** Greedy repetition: as many characters of the set as possible are
    taken, and one is given back at a time while the rest of the pattern
    ([k]) fails. *)
Fixpoint rep_greedy (cs : charset) (min : nat) (s : str)
         (k : str -> option A) : option A :=
  let stop := match min with O => k s | S _ => None end in
  match s with
  | c :: s' =>
      if in_set cs c then
        match rep_greedy cs (pred min) s' k with
        | Some res => Some res
        | None => stop
        end
      else stop
  | [] => stop
  end.

(** [bt r s caps k]: match [r] at the head of [s], then the rest of the
    pattern, [k], on what remains; alternatives are tried in the order of
    the engine and the first success is the result. *)
Fixpoint bt (r : regex) (s : str) (caps : captures)
         (k : str -> captures -> option A) : option A :=
  match r with
  | Chr cs =>
      match s with
      | c :: s' => if in_set cs c then k s' caps else None
      | [] => None
      end
  | Rep cs min => rep_greedy cs min s (fun s' => k s' caps)
  | Opt r1 =>
      match bt r1 s caps k with
      | Some res => Some res
      | None => k s caps
      end
  | Seq r1 r2 => bt r1 s caps (fun s1 caps1 => bt r2 s1 caps1 k)
  | Group i r1 =>
      bt r1 s caps
         (fun s' caps' => k s' ((i, firstn (length s - length s') s) :: caps'))
  end.

End Backtracking.

(** A match object: [m_text] is [m.group(0)]. *)
Record rmatch := { m_text : str; m_caps : captures }.

(** [m.group(i)] for [i >= 1]; [None] when the group took no part. *)
Definition group (m : rmatch) (i : nat) : option str := cap_get (m_caps m) i.

(** A match that starts at the head of [s], with what follows it. *)
Definition match_here (r : regex) (s : str) : option (rmatch * str) :=
  bt r s [] (fun rest caps =>
    Some ({| m_text := firstn (length s - length rest) s; m_caps := caps |}, rest)).

(** [pattern.finditer(s)]: the matches from left to right, each search
    starting where the previous match ended.  [skip] counts the characters
    of the last match still to be passed over.  (The patterns below match
    no empty text, so the engine's rule for empty matches plays no part.) *)
Fixpoint finditer_from (r : regex) (skip : nat) (s : str) : list rmatch :=
  match skip with
  | S n =>
      match s with
      | [] => []
      | _ :: s' => finditer_from r n s'
      end
  | O =>
      match match_here r s with
      | Some (m, _) =>
          m :: match s with
               | [] => []
               | _ :: s' => finditer_from r (length (m_text m) - 1) s'
               end
      | None =>
          match s with
          | [] => []
          | _ :: s' => finditer_from r 0 s'
          end
      end
  end.

Definition finditer (r : regex) (s : str) : list rmatch := finditer_from r 0 s.

End Text.

(* ================================================================= *)
(** * Effects: [print] and exceptions *)

(** The exceptions the program meets; [OtherError] stands for any other
    subclass of [Exception]. *)
Inductive exn :=
| ValueError | TypeError | AttributeError | UnknownTimeZoneError
| ParserRejectedMarkup | OtherError.

(** The lines the program prints. *)
Inductive event :=
| WarnUnknownBookRange (book_raw : str)   (* Warning: Unknown book '..' in range parsing *)
| WarnUnknownBookSingle (book_raw : str)  (* Warning: Unknown book '..' in single parsing *)
| WarnParseFailed (text : str)            (* Warning: Failed to parse '..' *)
| ErrFetch (year month : Z)               (* Error fetching data from ..: .. *)
| ErrUnknownTimezone (timezone_str : str) (* Error: Unknown timezone '..' *)
| ErrUnexpected (e : exn).                (* An unexpected error occurred in ..: .. *)

Inductive outcome (A : Type) :=
| Returned (a : A)
| Raised (e : exn).
Arguments Raised {A} e.

(** A computation: how it ends, and what it printed. *)
Definition M (A : Type) : Type := (outcome A * list event)%type.

Definition ret {A} (a : A) : M A := (Returned a, []).
Definition raise {A} (e : exn) : M A := (Raised e, []).
Definition tell (ev : event) : M unit := (Returned tt, [ev]).
Definition lift {A} (o : outcome A) : M A := (o, []).
Definition bind {A B} (m : M A) (f : A -> M B) : M B :=
  match m with
  | (Returned a, w) => let (r, w') := f a in (r, w ++ w')
  | (Raised e, w) => (Raised e, w)
  end.

Notation "x <- m ;; k" := (bind m (fun x => k))
  (at level 61, m at next level, right associativity).
Notation "m ;;; k" := (bind m (fun _ => k))
  (at level 61, right associativity).

(** A [for] loop whose body may leave the enclosing function: the loop
    yields [Some r] when the body returned [r], and [None] when it ran out
    of elements. *)
Inductive flow (R : Type) :=
| Next
| Return (r : R).
Arguments Next {R}.

Fixpoint for_ {X R} (xs : list X) (body : X -> M (flow R)) : M (option R) :=
  match xs with
  | [] => ret None
  | x :: xs' =>
      f <- body x ;;
      match f with
      | Next => for_ xs' body
      | Return r => ret (Some r)
      end
  end.

(* ================================================================= *)
(** * [parse_bible_text] *)

Definition chr (s : string) : N := hd 0%N (U s).

Notation "r1 >> r2" := (Seq r1 r2) (at level 60, right associativity).

(** [([가-힣]+[0-9]*서?)] *)
Definition book_name : regex :=
  Group 1 (Rep (Range (chr "가") (chr "힣")) 1
           >> Rep (Range (chr "0") (chr "9")) 0
           >> Opt (Chr (Lit (chr "서")))).

(** [([가-힣]+[0-9]*서?)\s*(\d+):(\d+)[~-](?:(\d+):)?(\d+)] *)
Definition pattern_range : regex :=
  book_name >> Rep Space 0 >> Group 2 (Rep Digit 1) >> Chr (Lit (chr ":"))
  >> Group 3 (Rep Digit 1) >> Chr (AnyOf [chr "~"; chr "-"])
  >> Opt (Group 4 (Rep Digit 1) >> Chr (Lit (chr ":")))
  >> Group 5 (Rep Digit 1).

(** [([가-힣]+[0-9]*서?)\s*(\d+):(\d+)] *)
Definition pattern_single : regex :=
  book_name >> Rep Space 0 >> Group 2 (Rep Digit 1) >> Chr (Lit (chr ":"))
  >> Group 3 (Rep Digit 1).

Definition book_mapping : list (str * Z) :=
  [ (U "창세기", 1); (U "출애굽기", 2); (U "레위기", 3); (U "민수기", 4);
    (U "신명기", 5); (U "여호수아", 6); (U "사사기", 7); (U "룻기", 8);
    (U "사무엘상", 9); (U "사무엘하", 10);
    (U "열왕기상", 11); (U "열왕기하", 12); (U "역대상", 13); (U "역대하", 14);
    (U "에스라", 15); (U "느헤미야", 16); (U "에스더", 17); (U "욥기", 18);
    (U "시편", 19); (U "잠언", 20);
    (U "전도서", 21); (U "아가", 22); (U "이사야", 23); (U "예레미야", 24);
    (U "예레미야애가", 25); (U "에스겔", 26); (U "다니엘", 27); (U "호세아", 28);
    (U "요엘", 29); (U "아모스", 30);
    (U "오바댜", 31); (U "요나", 32); (U "미가", 33); (U "나훔", 34);
    (U "하박국", 35); (U "스바냐", 36); (U "학개", 37); (U "스가랴", 38);
    (U "말라기", 39); (U "마태복음", 40);
    (U "마가복음", 41); (U "누가복음", 42); (U "요한복음", 43); (U "사도행전", 44);
    (U "로마서", 45); (U "고린도전서", 46); (U "고린도후서", 47);
    (U "갈라디아서", 48); (U "에베소서", 49); (U "빌립보서", 50);
    (U "골로새서", 51); (U "데살로니가전서", 52); (U "데살로니가후서", 53);
    (U "디모데전서", 54); (U "디모데후서", 55); (U "디도서", 56);
    (U "빌레몬서", 57); (U "히브리서", 58); (U "야고보서", 59);
    (U "베드로전서", 60);
    (U "베드로후서", 61); (U "요한일서", 62); (U "요한이서", 63);
    (U "요한삼서", 64); (U "유다서", 65); (U "요한계시록", 66) ]%Z.

(** [d.get(key)] *)
Fixpoint dict_get {V} (d : list (str * V)) (key : str) : option V :=
  match d with
  | [] => None
  | (k, v) :: d' => if str_eqb key k then Some v else dict_get d' key
  end.

(** [not bk] for [bk] an integer or [None]. *)
Definition not_ (bk : option Z) : bool :=
  match bk with
  | None => true
  | Some z => (z =? 0)%Z
  end.

(** The integer held by a [bk] that passed the test [if not bk]. *)
Definition value (bk : option Z) : Z :=
  match bk with
  | Some z => z
  | None => 0%Z
  end.

(** [book_raw.replace('일서','1서').replace('이서','2서').replace('삼서','3서')] *)
Definition respelt (book_raw : str) : str :=
  replace (U "삼서") (U "3서")
    (replace (U "이서") (U "2서")
       (replace (U "일서") (U "1서") book_raw)).

(** Lines 102-104 and 122-124: the exact lookup, then the lookup of the
    name with its ordinal suffix respelt. *)
Definition lookup_book (book_raw : str) : option Z :=
  let bk := dict_get book_mapping book_raw in
  if not_ bk then dict_get book_mapping (respelt book_raw) else bk.

(** A unit of the result, the dictionary with the keys
    [book], [chapter], [start] and [end]. *)
Record verse := { book : Z; chapter : Z; start : Z; end_ : Z }.

Section Parser.
Context {py : Interpreter}.

(** [int(m.group(i))] *)
Definition int_group (m : rmatch) (i : nat) : M Z :=
  match group m i with
  | None => raise TypeError
  | Some s => match int s with
              | Some z => ret z
              | None => raise ValueError
              end
  end.

(** [book_raw = m.group(1)] and the two lookups made with it. *)
Definition resolve (m : rmatch) : M (str * option Z) :=
  match group m 1 with
  | None => raise AttributeError
  | Some book_raw => ret (book_raw, lookup_book book_raw)
  end.

(** [if m.group(4):] *)
Definition truthy (g : option str) : bool :=
  match g with
  | Some (_ :: _) => true
  | _ => false
  end.

(** The units appended for a range match (lines 109-113). *)
Definition range_units (bk start_ch start_vs end_ch end_vs : Z) : list verse :=
  if negb (start_ch =? end_ch)%Z then
    [ {| book := bk; chapter := start_ch; start := start_vs; end_ := start_vs |};
      {| book := bk; chapter := end_ch; start := end_vs; end_ := end_vs |} ]
  else
    [ {| book := bk; chapter := start_ch; start := start_vs; end_ := end_vs |} ].

(** The body of the first loop (lines 93-114): [Next] is falling through
    to the next match ([continue]), [Return] is leaving the function. *)
Definition range_body (results : list verse) (m : rmatch) : M (flow (list verse)) :=
  start_ch <- int_group m 2 ;;
  start_vs <- int_group m 3 ;;
  end_ch <- (if truthy (group m 4) then int_group m 4 else ret start_ch) ;;
  end_vs <- int_group m 5 ;;
  b <- resolve m ;;
  let (book_raw, bk) := b in
  if not_ bk then tell (WarnUnknownBookRange book_raw) ;;; ret Next
  else ret (Return (results ++ range_units (value bk) start_ch start_vs end_ch end_vs)).

(** The body of the second loop (lines 118-130). *)
Definition single_body (results : list verse) (m : rmatch) : M (flow (list verse)) :=
  chapter <- int_group m 2 ;;
  verse <- int_group m 3 ;;
  b <- resolve m ;;
  let (book_raw, bk) := b in
  if not_ bk then tell (WarnUnknownBookSingle book_raw) ;;; ret Next
  else ret (Return (results ++
         [ {| book := value bk; chapter := chapter; start := verse; end_ := verse |} ])).

(** The body of [parse_bible_text] once the two [finditer] sequences are
    given. *)
Definition parse_from (bible_text_input : str)
           (range_matches single_matches : list rmatch) : M (list verse) :=
  let results := [] in
  r <- for_ range_matches (range_body results) ;;
  match r with
  | Some out => ret out
  | None =>
      r <- for_ single_matches (single_body results) ;;
      match r with
      | Some out => ret out
      | None =>
          (match results, strip bible_text_input with
           | [], _ :: _ => tell (WarnParseFailed bible_text_input)
           | _, _ => ret tt
           end) ;;;
          ret results
      end
  end.

Definition parse_bible_text (bible_text_input : str) : M (list verse) :=
  parse_from bible_text_input
             (finditer pattern_range bible_text_input)
             (finditer pattern_single bible_text_input).

End Parser.

(* ================================================================= *)
(** * BeautifulSoup: the parsed document and its queries

    The document is the tree the HTML parser built: tags, with the value of
    their [class] attribute split into its tokens ([None] when the tag has
    no such attribute), and text strings.  Comments and other strings that
    carry no text are left out. *)

#[warnings="-register-all"]
Inductive node :=
| NavigableString (s : str)
| Tag (name : str) (class_ : option (list str)) (contents : list node).

(** [tag.descendants]: the nodes below a node, in document order. *)
Fixpoint descendants (n : node) : list node :=
  match n with
  | NavigableString _ => []
  | Tag _ _ contents =>
      (fix below (l : list node) : list node :=
         match l with
         | [] => []
         | c :: l' => c :: descendants c ++ below l'
         end) contents
  end.

(** [tag.text]: the text strings below the tag, joined. *)
Definition text (n : node) : str :=
  flat_map (fun d => match d with NavigableString s => s | Tag _ _ _ => [] end)
           (descendants n).

Fixpoint join (sep : str) (l : list str) : str :=
  match l with
  | [] => []
  | [x] => x
  | x :: l' => x ++ sep ++ join sep l'
  end.

(** A filter on [class] is tried on each token of the attribute and then
    on the whole attribute value; a tag without the attribute is tested
    with [None]. *)
Definition class_matches (filter : option str -> bool) (cls : option (list str)) : bool :=
  match cls with
  | None => filter None
  | Some tokens =>
      existsb (fun v => filter (Some v)) tokens || filter (Some (join (U " ") tokens))
  end.

(** [class_='name'] *)
Definition class_is (name : str) : option str -> bool :=
  fun x => match x with Some v => str_eqb v name | None => false end.

(** [class_=lambda x: x and 'person' in x.split()] *)
Definition class_has_person : option str -> bool :=
  fun x => match x with
           | Some ((_ :: _) as v) => existsb (str_eqb (U "person")) (split v)
           | _ => false
           end.

(** [tag.find_all(name, class_=filter)] and [tag.find(name, class_=filter)];
    [None] for the filter is a query by name alone. *)
Definition find_all (t : node) (name : str) (filter : option (option str -> bool))
  : list node :=
  List.filter
    (fun d => match d with
              | NavigableString _ => false
              | Tag n cls _ =>
                  str_eqb n name &&
                  match filter with
                  | None => true
                  | Some f => class_matches f cls
                  end
              end)
    (descendants t).

Definition find (t : node) (name : str) (filter : option (option str -> bool))
  : option node :=
  hd_error (find_all t name filter).

(* ================================================================= *)
(** * [get_qt_schedule] *)

(** A record of the schedule, the dictionary with the keys
    [day], [bible], [week] and [title]. *)
Record entry := { day : str; bible : str; week : option str; title : option str }.

(** [d[key] = v] on a dictionary, which keeps its keys in the order of
    their first insertion. *)
Fixpoint dict_set {V} (d : list (str * V)) (key : str) (v : V) : list (str * V) :=
  match d with
  | [] => [(key, v)]
  | (k, w) :: d' =>
      if str_eqb key k then (k, v) :: d' else (k, w) :: dict_set d' key v
  end.

(** [d.values()] *)
Definition values {V} (d : list (str * V)) : list V := map snd d.

(** [sorted(l, key=...)] once the keys are computed: a stable sort. *)
Fixpoint insert_sorted {V} (x : Z * V) (l : list (Z * V)) : list (Z * V) :=
  match l with
  | [] => [x]
  | y :: l' =>
      if (fst x <=? fst y)%Z then x :: y :: l' else y :: insert_sorted x l'
  end.

Definition sort_keyed {V} (l : list (Z * V)) : list (Z * V) :=
  fold_right insert_sorted [] l.

Fixpoint mapM {X Y} (f : X -> M Y) (l : list X) : M (list Y) :=
  match l with
  | [] => ret []
  | x :: l' => y <- f x ;; ys <- mapM f l' ;; ret (y :: ys)
  end.

Fixpoint foldM {X S} (f : S -> X -> M S) (l : list X) (st : S) : M S :=
  match l with
  | [] => ret st
  | x :: l' => st' <- f st x ;; foldM f l' st'
  end.

(** What lies outside the program: the calendar site, the HTML parser,
    and the time-zone and calendar arithmetic of [datetime] and [pytz].
    - [requests_get year month] is [response.content] for the request of
      that month, [None] when the request raised a [RequestException];
    - [BeautifulSoup page] is the tree [BeautifulSoup(page, "html.parser")]
      builds, or the exception the parser raises ([ParserRejectedMarkup],
      for one), which is never the [UnknownTimeZoneError] of [pytz];
    - [fromtimestamp_utc timestamp_ms] is
      [datetime.fromtimestamp(timestamp_ms / 1000, tz=pytz.utc)];
    - [pytz_timezone name] is [None] when [pytz.timezone(name)] raises
      [UnknownTimeZoneError];
    - [civil] gives the [year], [month] and [day] of a datetime. *)
Class World := {
  content : Type;
  requests_get : Z -> Z -> option content;
  BeautifulSoup : content -> outcome node;
  BeautifulSoup_raises : forall page, BeautifulSoup page <> Raised UnknownTimeZoneError;
  datetime : Type;
  tzinfo : Type;
  fromtimestamp_utc : Z -> outcome datetime;
  pytz_timezone : str -> option tzinfo;
  astimezone : datetime -> tzinfo -> outcome datetime;
  civil : datetime -> Z * Z * Z
}.

Section Calendar.
Context {py : Interpreter} {world : World}.

Definition schedule := list (str * entry).

(** Lines 44-50, for one cell of the table view. *)
Definition table_cell (schedule_data : schedule) (cell : node) : schedule :=
  match find cell (U "span") (Some (class_is (U "day"))),
        find cell (U "span") (Some (class_is (U "bible"))) with
  | Some d, Some b =>
      let day := strip (text d) in
      let bible := replace [0xA0%N] (U " ") (strip (text b)) in
      match day with
      | _ :: _ =>
          dict_set schedule_data day
                   {| day := day; bible := bible; week := None; title := None |}
      | [] => schedule_data
      end
  | _, _ => schedule_data
  end.

(** Lines 40-50: the cells of every row but the first, in order. *)
Definition table_pass (soup : node) (schedule_data : schedule) : schedule :=
  match find soup (U "div") (Some (class_is (U "calendar-table"))) with
  | Some table_view =>
      fold_left table_cell
                (flat_map (fun row => find_all row (U "td") None)
                          (tl (find_all table_view (U "tr") None)))
                schedule_data
  | None => schedule_data
  end.

(** [td.find('span').text.strip()] *)
Definition span_text (td : node) : M str :=
  match find td (U "span") None with
  | Some sp => ret (strip (text sp))
  | None => raise AttributeError
  end.

(** Lines 56-65, for one row of the list view. *)
Definition list_row (schedule_data : schedule) (tr : node) : M schedule :=
  match find tr (U "td") (Some (class_is (U "time"))),
        find tr (U "td") (Some (class_is (U "name"))),
        find tr (U "td") (Some (class_is (U "title"))),
        find tr (U "td") (Some (class_is (U "views"))) with
  | Some t, Some n, Some ti, Some v =>
      day <- span_text t ;;
      week <- span_text n ;;
      title <- span_text ti ;;
      let bible := replace [0xA0%N] (U " ") (strip (text v)) in
      ret (dict_set schedule_data day
                    {| day := day; bible := bible; week := Some week; title := Some title |})
  | _, _, _, _ => ret schedule_data
  end.

(** Lines 53-65. *)
Definition list_pass (soup : node) (schedule_data : schedule) : M schedule :=
  match find soup (U "div") (Some (class_is (U "calendar-list"))) with
  | Some list_view =>
      foldM list_row (find_all list_view (U "tr") (Some class_has_person)) schedule_data
  | None => ret schedule_data
  end.

(** [key=lambda x: int(x['day'])] *)
Definition day_key (x : entry) : M (Z * entry) :=
  match int (day x) with
  | Some z => ret (z, x)
  | None => raise ValueError
  end.

(** Lines 36-67, on the parsed document. *)
Definition schedule_of (soup : node) : M (list entry) :=
  let schedule_data := [] in
  let schedule_data := table_pass soup schedule_data in
  schedule_data <- list_pass soup schedule_data ;;
  keyed <- mapM day_key (values schedule_data) ;;
  ret (map snd (sort_keyed keyed)).

(** [None] is the [None] returned when the request failed; the document
    is built after the [try], so what the parser raises leaves the
    function. *)
Definition get_qt_schedule (year month : Z) : M (option (list entry)) :=
  match requests_get year month with
  | None => tell (ErrFetch year month) ;;; ret None
  | Some page =>
      soup <- lift (BeautifulSoup page) ;;
      l <- schedule_of soup ;;
      ret (Some l)
  end.

(* ================================================================= *)
(** * [timestamp_to_qt_data_ms] and [get_qt_bible_data] *)

(** [try: m except ...: h] *)
Definition try_except {A} (m : M A) (h : exn -> M A) : M A :=
  match m with
  | (Raised e, w) => let (r, w') := h e in (r, w ++ w')
  | (Returned a, w) => (Returned a, w)
  end.

(** [next((i['bible'] for i in sched if int(i['day']) == d), None)] *)
Fixpoint next_bible (sched : list entry) (d : Z) : M (option str) :=
  match sched with
  | [] => ret None
  | i :: sched' =>
      match int (day i) with
      | None => raise ValueError
      | Some z => if (z =? d)%Z then ret (Some (bible i)) else next_bible sched' d
      end
  end.

(** Lines 148-165, the body of the [try]. *)
Definition resolve_date (timestamp_ms : Z) (timezone_str : str) : M (list verse) :=
  dt_utc <- lift (fromtimestamp_utc timestamp_ms) ;;
  target_timezone <- match pytz_timezone timezone_str with
                     | Some tz => ret tz
                     | None => raise UnknownTimeZoneError
                     end ;;
  dt_localized <- lift (astimezone dt_utc target_timezone) ;;
  let '(year, month, today) := civil dt_localized in
  sched <- get_qt_schedule year month ;;
  match sched with
  | None | Some [] => ret []
  | Some sched =>
      bible <- next_bible sched today ;;
      match bible with
      | Some ((_ :: _) as b) => parse_bible_text b
      | _ => ret []
      end
  end.

Definition timestamp_to_qt_data_ms (timestamp_ms : Z) (timezone_str : str)
  : M (list verse) :=
  try_except (resolve_date timestamp_ms timezone_str)
    (fun e =>
       match e with
       | UnknownTimeZoneError => tell (ErrUnknownTimezone timezone_str) ;;; ret []
       | _ => tell (ErrUnexpected e) ;;; ret []
       end).

(** The JSON bodies of the endpoint, and the answer with its status. *)
Inductive body :=
| ErrorTimestampRequired         (* "timestamp_ms parameter is required" *)
| ErrorInvalidTimestamp          (* "Invalid timestamp_ms format. Must be an integer." *)
| ErrorInvalidTimezone (timezone_str : str)  (* "Invalid timezone: '..'. Please provide ..." *)
| MessageNoData                  (* "No QT data found ...", "data": [] *)
| Data (qt_data : list verse).

Definition response := (body * Z)%type.

(** [timestamp_ms] and [timezone] are the query parameters of the request,
    [None] when absent. *)
Definition get_qt_bible_data (timestamp_ms timezone : option str) : M response :=
  let timestamp_ms_str := timestamp_ms in
  let timezone_str := match timezone with Some tz => tz | None => U "Asia/Seoul" end in
  match timestamp_ms_str with
  | None | Some [] => ret (ErrorTimestampRequired, 400%Z)
  | Some ts =>
      match int ts with
      | None => ret (ErrorInvalidTimestamp, 400%Z)
      | Some timestamp_ms =>
          match pytz_timezone timezone_str with
          | None => ret (ErrorInvalidTimezone timezone_str, 400%Z)
          | Some _ =>
              qt_data <- timestamp_to_qt_data_ms timestamp_ms timezone_str ;;
              match qt_data with
              | [] => ret (MessageNoData, 200%Z)
              | _ => ret (Data qt_data, 200%Z)
              end
          end
      end
  end.

End Calendar.

(* ================================================================= *)
(** * Vocabulary of the statements *)

(** What a pattern matches, told without the search: [matches r w c c']
    says that [r] matches exactly the text [w] and turns the captures [c]
    into [c']. *)
Section Matching.
Context {py : Interpreter}.

Inductive matches : regex -> str -> captures -> captures -> Prop :=
| matches_chr cs c caps :
    in_set cs c = true -> matches (Chr cs) [c] caps caps
| matches_rep cs min w caps :
    forallb (in_set cs) w = true -> min <= length w ->
    matches (Rep cs min) w caps caps
| matches_opt_taken r w caps caps' :
    matches r w caps caps' -> matches (Opt r) w caps caps'
| matches_opt_skipped r caps :
    matches (Opt r) [] caps caps
| matches_seq r1 r2 w1 w2 c0 c1 c2 :
    matches r1 w1 c0 c1 -> matches r2 w2 c1 c2 ->
    matches (Seq r1 r2) (w1 ++ w2) c0 c2
| matches_group i r w c0 c1 :
    matches r w c0 c1 -> matches (Group i r) w c0 ((i, w) :: c1).

(** A run of decimal digits, as [\d+] captures it. *)
Definition digits (w : str) : Prop := w <> [] /\ forallb isdecimal w = true.

(** The book name of a match resolves to the number [bk] (the test
    [if not bk] fails), or does not resolve (the test succeeds). *)
Definition resolves (m : rmatch) (bk : Z) : Prop :=
  exists book_raw,
    group m 1 = Some book_raw /\ lookup_book book_raw = Some bk /\ bk <> 0%Z.

Definition unresolved (m : rmatch) (book_raw : str) : Prop :=
  group m 1 = Some book_raw /\ not_ (lookup_book book_raw) = true.

End Matching.

(** An interpreter whose only decimal digits are the ASCII ones and whose
    limit on [int] is the default one; the examples are run with it. *)
#[export] Instance ascii_only : Interpreter :=
  {| nd_digit := fun _ => None; int_max_str_digits := 4300 |}.

(** The example world with a site whose pages the parser rejects. *)
Definition rejecting_world : World := {|
  content := unit;
  requests_get := fun _ _ => Some tt;
  BeautifulSoup := fun _ => Raised ParserRejectedMarkup;
  BeautifulSoup_raises := fun _ H => ltac:(discriminate H);
  datetime := Z;
  tzinfo := str;
  fromtimestamp_utc := fun timestamp_ms => Returned timestamp_ms;
  pytz_timezone := fun name =>
    if str_eqb name (U "Asia/Seoul") || str_eqb name (U "UTC") then Some name else None;
  astimezone := fun dt _ => Returned dt;
  civil := fun _ => (2025, 5, 2)%Z
|}.

(** A run of digits that [int] converts: not longer than the limit. *)
Definition fits {py : Interpreter} (w : str) : bool := negb (over_limit (length w)).

(** The numbered groups of a match that took part are within the limit:
    groups 2 to 5 of the range form, groups 2 and 3 of the single form. *)
Definition group_fits {py : Interpreter} (m : rmatch) (i : nat) : bool :=
  match group m i with
  | Some w => fits w
  | None => true
  end.

Definition range_fits {py : Interpreter} (m : rmatch) : bool :=
  forallb (group_fits m) [2; 3; 4; 5].

Definition single_fits {py : Interpreter} (m : rmatch) : bool :=
  forallb (group_fits m) [2; 3].

(** Texts for the examples: a number of 4301 digits, one more than the
    interpreter [ascii_only] converts, in a reference of the single form
    and in a reference of the range form whose book is unknown, followed
    by a reference that resolves. *)
Definition long_number : str := repeat 49%N 4301.

Definition long_number_single : str := U "시편 " ++ long_number ++ U ":1".


(** A document for the examples: the table view shows the first day as
    "1" and the list view shows it as "01". *)
Definition padded_days_soup : node :=
  Tag (U "[document]") None
    [ Tag (U "div") (Some [U "calendar-table"])
        [ Tag (U "table") None
            [ Tag (U "tr") None [ Tag (U "th") None [NavigableString (U "Sun")] ];
              Tag (U "tr") None
                [ Tag (U "td") None
                    [ Tag (U "span") (Some [U "day"]) [NavigableString (U "1")];
                      Tag (U "span") (Some [U "bible"]) [NavigableString (U "시편 1:1")] ];
                  Tag (U "td") None
                    [ Tag (U "span") (Some [U "day"]) [NavigableString (U "2")];
                      Tag (U "span") (Some [U "bible"]) [NavigableString (U "시편 2:1")] ] ] ] ];
      Tag (U "div") (Some [U "calendar-list"])
        [ Tag (U "table") None
            [ Tag (U "tr") (Some [U "person"])
                [ Tag (U "td") (Some [U "time"]) [ Tag (U "span") None [NavigableString (U "01")] ];
                  Tag (U "td") (Some [U "name"]) [ Tag (U "span") None [NavigableString (U "Thu")] ];
                  Tag (U "td") (Some [U "title"]) [ Tag (U "span") None [NavigableString (U "Blessed")] ];
                  Tag (U "td") (Some [U "views"]) [NavigableString (U " 시편 1:1~6 ")] ];
              Tag (U "tr") (Some [U "person"; U "odd"])
                [ Tag (U "td") (Some [U "time"]) [ Tag (U "span") None [NavigableString (U "2")] ];
                  Tag (U "td") (Some [U "name"]) [ Tag (U "span") None [NavigableString (U "Fri")] ];
                  Tag (U "td") (Some [U "title"]) [ Tag (U "span") None [NavigableString (U "The King")] ];
                  Tag (U "td") (Some [U "views"]) [NavigableString (U "시편 2:1~12")] ] ] ] ].

(** A world for the examples: the site answers every request with a page
    that parses to [padded_days_soup], an instant is its number of
    milliseconds and falls on the second of May 2025 in every zone, and
    the zones known are "Asia/Seoul" and "UTC". *)
#[export] Instance example_world : World := {|
  content := node;
  requests_get := fun _ _ => Some padded_days_soup;
  BeautifulSoup := @Returned node;
  BeautifulSoup_raises := fun _ H => ltac:(discriminate H);
  datetime := Z;
  tzinfo := str;
  fromtimestamp_utc := fun timestamp_ms => Returned timestamp_ms;
  pytz_timezone := fun name =>
    if str_eqb name (U "Asia/Seoul") || str_eqb name (U "UTC") then Some name else None;
  astimezone := fun dt _ => Returned dt;
  civil := fun _ => (2025, 5, 2)%Z
|}.

(** Two more documents for the examples: a list view whose only row has a
    blank day cell, and one whose only row has a day cell without the
    inner [span]. *)
Definition blank_day_soup : node :=
  Tag (U "[document]") None
    [ Tag (U "div") (Some [U "calendar-list"])
        [ Tag (U "tr") (Some [U "person"])
            [ Tag (U "td") (Some [U "time"]) [ Tag (U "span") None [NavigableString (U " ")] ];
              Tag (U "td") (Some [U "name"]) [ Tag (U "span") None [NavigableString (U "Thu")] ];
              Tag (U "td") (Some [U "title"]) [ Tag (U "span") None [NavigableString (U "Blessed")] ];
              Tag (U "td") (Some [U "views"]) [NavigableString (U "시편 1:1~6")] ] ] ].

Definition spanless_soup : node :=
  Tag (U "[document]") None
    [ Tag (U "div") (Some [U "calendar-list"])
        [ Tag (U "tr") (Some [U "person"])
            [ Tag (U "td") (Some [U "time"]) [NavigableString (U "1")];
              Tag (U "td") (Some [U "name"]) [ Tag (U "span") None [NavigableString (U "Thu")] ];
              Tag (U "td") (Some [U "title"]) [ Tag (U "span") None [NavigableString (U "Blessed")] ];
              Tag (U "td") (Some [U "views"]) [NavigableString (U "시편 1:1~6")] ] ] ].

(** A document whose list view gives the second day a reference with a
    chapter of 4301 digits. *)
Definition long_number_soup : node :=
  Tag (U "[document]") None
    [ Tag (U "div") (Some [U "calendar-list"])
        [ Tag (U "tr") (Some [U "person"])
            [ Tag (U "td") (Some [U "time"]) [ Tag (U "span") None [NavigableString (U "2")] ];
              Tag (U "td") (Some [U "name"]) [ Tag (U "span") None [NavigableString (U "Fri")] ];
              Tag (U "td") (Some [U "title"]) [ Tag (U "span") None [NavigableString (U "The King")] ];
              Tag (U "td") (Some [U "views"]) [NavigableString long_number_single] ] ] ].

(** The world of the examples with another answer of the site: [None]
    for a request that fails, or the document its page parses to. *)
Definition world_answering (answer : option node) : World := {|
  content := node;
  requests_get := fun _ _ => answer;
  BeautifulSoup := @Returned node;
  BeautifulSoup_raises := fun _ H => ltac:(discriminate H);
  datetime := Z;
  tzinfo := str;
  fromtimestamp_utc := fun timestamp_ms => Returned timestamp_ms;
  pytz_timezone := fun name =>
    if str_eqb name (U "Asia/Seoul") || str_eqb name (U "UTC") then Some name else None;
  astimezone := fun dt _ => Returned dt;
  civil := fun _ => (2025, 5, 2)%Z
|}.

(** The record of a schedule that the resolver reads for the day [d]: the
    first whose day text denotes [d]. *)
Definition is_day {py : Interpreter} (d : Z) (e : entry) : bool :=
  match int (day e) with
  | Some z => (z =? d)%Z
  | None => false
  end.

(** The days of a schedule, as numbers, are in the order [R]. *)
Definition ascending {py : Interpreter} (R : Z -> Z -> Prop) (l : list entry) : Prop :=
  exists ks, map (fun e => int (day e)) l = map Some ks /\ StronglySorted R ks.

(** The order [sorted] puts the keyed records in. *)
Definition key_le {V} (a b : Z * V) : Prop := (fst a <= fst b)%Z.

(** The characters 1, 2 and 3, which the respelling of a name writes. *)
Definition ordinal_digit (c : N) : bool := ((49 <=? c) && (c <=? 51))%N.

(** The constraints the data model puts on a unit. *)
Definition unit_as_specified (u : verse) : Prop :=
  (1 <= book u <= 66 /\ 0 < chapter u /\ 0 < start u /\ 0 < end_ u
   /\ start u <= end_ u)%Z.

(** What the parser does ensure of a unit. *)
Definition unit_in_table (u : verse) : Prop :=
  (1 <= book u <= 66 /\ 0 <= chapter u /\ 0 <= start u /\ 0 <= end_ u)%Z.

(* ================================================================= *)
(** * Properties of the text functions *)

Unset Implicit Arguments.

Ltac inv H := inversion H; subst; clear H.

Section TextFacts.
Context {py : Interpreter}.

Lemma str_eqb_eq a b : str_eqb a b = true <-> a = b.
Proof.
  unfold str_eqb. destruct (list_eq_dec N.eq_dec a b); split; congruence.
Qed.

Lemma str_eqb_refl a : str_eqb a a = true.
Proof. now apply str_eqb_eq. Qed.

Lemma lstrip_with_keeps sp s :
  match s with [] => True | c :: _ => sp c = false end ->
  lstrip_with sp s = s.
Proof. destruct s as [|c s]; simpl; auto. now intros ->. Qed.

Lemma lstrip_with_nil sp s :
  lstrip_with sp s = [] -> forallb sp s = true.
Proof.
  induction s as [|c s IH]; simpl; auto.
  destruct (sp c); [auto | discriminate].
Qed.

Lemma lstrip_with_head sp s c t :
  lstrip_with sp s = c :: t -> sp c = false.
Proof.
  induction s as [|a s IH]; simpl; [discriminate|].
  destruct (sp a) eqn:E; auto. intros [= -> _]. exact E.
Qed.

Lemma lstrip_with_all sp s :
  forallb sp s = true -> lstrip_with sp s = [].
Proof.
  induction s as [|c s IH]; simpl; auto.
  destruct (sp c); [auto | discriminate].
Qed.

Lemma forallb_rev (p : N -> bool) s : forallb p (rev s) = forallb p s.
Proof.
  induction s as [|c s IH]; simpl; auto.
  rewrite forallb_app, IH. simpl. rewrite andb_true_r. apply andb_comm.
Qed.

(** A text that strips to nothing holds whitespace only, and conversely. *)
Lemma strip_with_nil sp s :
  strip_with sp s = [] <-> forallb sp s = true.
Proof.
  unfold strip_with. split.
  - intros H. apply (f_equal (@rev N)) in H. rewrite rev_involutive in H.
    simpl in H. destruct (lstrip_with sp s) as [|c t] eqn:E.
    + now apply lstrip_with_nil.
    + apply lstrip_with_nil in H. rewrite forallb_rev in H.
      apply lstrip_with_head in E. simpl in H. rewrite E in H. discriminate.
  - intros H. now rewrite (lstrip_with_all _ _ H).
Qed.

(** A text with no whitespace at either end is left as it is. *)
Lemma strip_with_id sp s :
  forallb (fun c => negb (sp c)) s = true -> strip_with sp s = s.
Proof.
  intros H. unfold strip_with.
  assert (K : forall t, forallb (fun c => negb (sp c)) t = true -> lstrip_with sp t = t).
  { intros t Ht. apply lstrip_with_keeps. destruct t as [|c t]; auto.
    simpl in Ht. apply andb_true_iff in Ht as [Hc _].
    now apply negb_true_iff in Hc. }
  rewrite (K s H), K, rev_involutive; auto. now rewrite forallb_rev.
Qed.

Lemma isdecimal_not_int_isspace c : isdecimal c = true -> int_isspace c = false.
Proof.
  unfold isdecimal, todecimal, int_isspace.
  destruct (c <? 128)%N eqn:E.
  - destruct ((48 <=? c) && (c <=? 57))%N eqn:D; [|discriminate]. intros _.
    apply andb_true_iff in D as [D1 D2].
    apply N.leb_le in D1, D2.
    replace (c <? 127)%N with true by (symmetry; apply N.ltb_lt; lia).
    replace (c <=? 13)%N with false by (symmetry; apply N.leb_gt; lia).
    replace (c =? 32)%N with false by (symmetry; apply N.eqb_neq; lia).
    now rewrite andb_false_r.
  - apply N.ltb_ge in E.
    replace (c <? 127)%N with false by (symmetry; apply N.ltb_ge; lia).
    destruct (is_hangul c); simpl; [discriminate|].
    destruct (isspace c); [discriminate | reflexivity].
Qed.

Lemma isdecimal_ascii c :
  (c < 128)%N -> isdecimal c = true -> (48 <= c <= 57)%N.
Proof.
  unfold isdecimal, todecimal. intros H. apply N.ltb_lt in H. rewrite H.
  destruct ((48 <=? c) && (c <=? 57))%N eqn:D; [|discriminate]. intros _.
  apply andb_true_iff in D as [D1 D2]. apply N.leb_le in D1, D2. lia.
Qed.

Lemma int_digits_total w :
  forallb isdecimal w = true ->
  forall acc b, w <> [] -> exists n, int_digits acc b w = Some n.
Proof.
  induction w as [|c w IH]; intros F acc b NE; [congruence|].
  simpl in F. apply andb_true_iff in F as [Fc Fw]. simpl.
  destruct (c =? 95)%N eqn:E.
  - apply N.eqb_eq in E. subst c.
    apply isdecimal_ascii in Fc; lia.
  - unfold isdecimal in Fc. destruct (todecimal c) as [d|]; [|discriminate].
    destruct w as [|c' w'].
    + simpl. eauto.
    + apply IH; [exact Fw | discriminate].
Qed.

Lemma count_digits_of_digits w :
  forallb isdecimal w = true -> count_digits w = length w.
Proof.
  unfold count_digits. induction w as [|c w IH]; simpl; [reflexivity|].
  intros F. apply andb_true_iff in F as [Fc Fw].
  destruct (c =? 95)%N eqn:E.
  - apply N.eqb_eq in E. subst c. apply isdecimal_ascii in Fc; lia.
  - simpl. now rewrite IH.
Qed.

(** A run of decimal digits is left as it is by the trimming of [int],
    and begins with no sign. *)
Lemma int_on_digits w :
  digits w -> int w = option_map Z.of_N (int_unsigned w).
Proof.
  intros [NE F]. unfold int.
  rewrite strip_with_id.
  - destruct w as [|c t]; [congruence|].
    assert (Fc : isdecimal c = true) by (simpl in F; now apply andb_true_iff in F).
    destruct (c =? 43)%N eqn:E1.
    { apply N.eqb_eq in E1. subst c. apply isdecimal_ascii in Fc; lia. }
    destruct (c =? 45)%N eqn:E2.
    { apply N.eqb_eq in E2. subst c. apply isdecimal_ascii in Fc; lia. }
    reflexivity.
  - apply forallb_forall. intros c Hc.
    rewrite forallb_forall in F. apply negb_true_iff.
    apply isdecimal_not_int_isspace. auto.
Qed.

(** [int] of a run of decimal digits within the limit does not fail and
    is not negative; beyond the limit it raises. *)
Lemma int_of_digits w :
  digits w -> fits w = true -> exists n, int w = Some (Z.of_N n).
Proof.
  intros D L. rewrite (int_on_digits w D). destruct D as [NE F].
  unfold int_unsigned.
  destruct (int_digits_total w F 0%N true NE) as [n Hn]. rewrite Hn.
  rewrite (count_digits_of_digits w F).
  unfold fits in L. apply negb_true_iff in L. rewrite L. simpl. eauto.
Qed.

Lemma int_beyond_limit w :
  digits w -> fits w = false -> int w = None.
Proof.
  intros D L. rewrite (int_on_digits w D). destruct D as [NE F].
  unfold int_unsigned.
  destruct (int_digits_total w F 0%N true NE) as [n Hn]. rewrite Hn.
  rewrite (count_digits_of_digits w F).
  unfold fits in L. apply negb_false_iff in L. now rewrite L.
Qed.

End TextFacts.

(* ================================================================= *)
(** * The matcher finds only what the pattern describes *)

Section MatcherFacts.
Context {py : Interpreter}.

Lemma rep_greedy_sound A cs (k : str -> option A) x s :
  forall min,
  rep_greedy cs min s k = Some x ->
  exists w s', s = w ++ s' /\ forallb (in_set cs) w = true
               /\ min <= length w /\ k s' = Some x.
Proof.
  induction s as [|c s IH]; intros min; simpl.
  - destruct min; [|discriminate]. intros H.
    exists [], []. simpl. auto.
  - destruct (in_set cs c) eqn:E.
    + destruct (rep_greedy cs (pred min) s k) eqn:R.
      * intros [= <-]. apply IH in R as (w & s' & -> & F & L & K).
        exists (c :: w), s'. simpl. rewrite E. repeat split; auto. lia.
      * destruct min; [|discriminate]. intros H.
        exists [], (c :: s). simpl. auto.
    + destruct min; [|discriminate]. intros H.
      exists [], (c :: s). simpl. auto.
Qed.

Lemma firstn_consumed (w s' : str) :
  firstn (length (w ++ s') - length s') (w ++ s') = w.
Proof.
  rewrite length_app.
  replace (length w + length s' - length s') with (length w + 0) by lia.
  rewrite firstn_app_2. simpl. apply app_nil_r.
Qed.

Lemma bt_sound A r :
  forall s caps (k : str -> captures -> option A) x,
  bt r s caps k = Some x ->
  exists w s' caps',
    s = w ++ s' /\ matches r w caps caps' /\ k s' caps' = Some x.
Proof.
  induction r as [cs | cs min | r IH | r1 IH1 r2 IH2 | i r IH];
    intros s caps k x; simpl.
  - destruct s as [|c s]; [discriminate|].
    destruct (in_set cs c) eqn:E; [|discriminate]. intros H.
    exists [c], s, caps. repeat split; auto. now constructor.
  - intros H. apply rep_greedy_sound in H as (w & s' & -> & F & L & K).
    exists w, s', caps. repeat split; auto. now constructor.
  - destruct (bt r s caps k) eqn:B.
    + intros [= <-]. apply IH in B as (w & s' & caps' & -> & Mw & K).
      exists w, s', caps'. repeat split; auto. now constructor.
    + intros H. exists [], s, caps. repeat split; auto. apply matches_opt_skipped.
  - intros H. apply IH1 in H as (w1 & s1 & c1 & -> & M1 & H).
    apply IH2 in H as (w2 & s2 & c2 & -> & M2 & K).
    exists (w1 ++ w2), s2, c2. rewrite app_assoc. repeat split; auto.
    econstructor; eauto.
  - intros H. apply IH in H as (w & s' & caps' & -> & Mw & K).
    rewrite firstn_consumed in K.
    exists w, s', ((i, w) :: caps'). repeat split; auto. now constructor.
Qed.

Lemma match_here_sound r s m rest :
  match_here r s = Some (m, rest) ->
  s = m_text m ++ rest /\ matches r (m_text m) [] (m_caps m).
Proof.
  unfold match_here. intros H.
  apply bt_sound in H as (w & s' & caps' & -> & Mw & K).
  rewrite firstn_consumed in K. inv K. simpl. auto.
Qed.

Lemma finditer_from_sound r m s :
  forall skip, In m (finditer_from r skip s) -> matches r (m_text m) [] (m_caps m).
Proof.
  induction s as [|c s IH]; intros skip; destruct skip as [|n]; simpl.
  - destruct (match_here r []) as [[m' rest]|] eqn:E; simpl; [|tauto].
    intros [<- | []]. now apply match_here_sound in E.
  - tauto.
  - destruct (match_here r (c :: s)) as [[m' rest]|] eqn:E; simpl.
    + intros [<- | H]; [now apply match_here_sound in E | eauto].
    + eauto.
  - eauto.
Qed.

Lemma finditer_sound r m s :
  In m (finditer r s) -> matches r (m_text m) [] (m_caps m).
Proof. apply finditer_from_sound. Qed.

(** ** The groups of the two patterns *)

Lemma rep_digits w caps caps' :
  matches (Rep Digit 1) w caps caps' -> digits w /\ caps' = caps.
Proof.
  intros H. inv H. split; auto. split; auto.
  destruct w; simpl in *; [lia | discriminate].
Qed.

Lemma book_name_group w caps caps' :
  matches book_name w caps caps' -> caps' = (1, w) :: caps.
Proof.
  unfold book_name. intros H. inv H.
  match goal with H : matches (Seq _ _) _ _ _ |- _ => inv H end.
  match goal with H : matches (Seq _ _) _ _ _ |- _ => inv H end.
  repeat match goal with H : matches (Rep _ _) _ _ _ |- _ => inv H end.
  match goal with H : matches (Opt _) _ _ _ |- _ => inv H end; auto.
  match goal with H : matches (Chr _) _ _ _ |- _ => inv H end; auto.
Qed.

Ltac split_seq :=
  repeat match goal with
         | H : matches (Seq _ _) _ _ _ |- _ => inv H
         | H : matches (_ >> _) _ _ _ |- _ => inv H
         end.

(** Groups 1, 2, 3 and 5 take part in every match of the range pattern,
    group 4 in some; the numbered groups are runs of digits. *)
Lemma range_groups m text :
  In m (finditer pattern_range text) ->
  exists w1 w2 w3 w5,
    group m 1 = Some w1 /\ group m 2 = Some w2 /\ group m 3 = Some w3
    /\ group m 5 = Some w5 /\ digits w2 /\ digits w3 /\ digits w5
    /\ (group m 4 = None \/ exists w4, group m 4 = Some w4 /\ digits w4).
Proof.
  intros H. apply finditer_sound in H. unfold group.
  destruct m as [t caps]. simpl in *. unfold pattern_range in H.
  split_seq.
  match goal with H : matches book_name _ _ _ |- _ => apply book_name_group in H; subst end.
  match goal with H : matches (Opt _) _ _ _ |- _ => inv H end.
  - split_seq.
    repeat match goal with
           | H : matches (Group _ _) _ _ _ |- _ => inv H
           | H : matches (Chr _) _ _ _ |- _ => inv H
           | H : matches (Rep Space _) _ _ _ |- _ => inv H
           | H : matches (Rep Digit 1) _ _ _ |- _ => apply rep_digits in H as [? ?]; subst
           end.
    simpl. do 4 eexists.
    do 7 (split; [solve [eauto] |]).
    right. eexists. split; eauto.
  - repeat match goal with
           | H : matches (Group _ _) _ _ _ |- _ => inv H
           | H : matches (Chr _) _ _ _ |- _ => inv H
           | H : matches (Rep Space _) _ _ _ |- _ => inv H
           | H : matches (Rep Digit 1) _ _ _ |- _ => apply rep_digits in H as [? ?]; subst
           end.
    simpl. do 4 eexists.
    do 7 (split; [solve [eauto] |]). now left.
Qed.

Lemma single_groups m text :
  In m (finditer pattern_single text) ->
  exists w1 w2 w3,
    group m 1 = Some w1 /\ group m 2 = Some w2 /\ group m 3 = Some w3
    /\ digits w2 /\ digits w3.
Proof.
  intros H. apply finditer_sound in H. unfold group.
  destruct m as [t caps]. simpl in *. unfold pattern_single in H.
  split_seq.
  match goal with H : matches book_name _ _ _ |- _ => apply book_name_group in H; subst end.
  repeat match goal with
         | H : matches (Group _ _) _ _ _ |- _ => inv H
         | H : matches (Chr _) _ _ _ |- _ => inv H
         | H : matches (Rep Space _) _ _ _ |- _ => inv H
         | H : matches (Rep Digit 1) _ _ _ |- _ => apply rep_digits in H as [? ?]; subst
         end.
  simpl. do 3 eexists.
  do 4 (split; [solve [eauto] |]). assumption.
Qed.

End MatcherFacts.

(* ================================================================= *)
(** * The book table and the lookup of a name *)

Section BookFacts.

Lemma dict_get_in V (d : list (str * V)) k v :
  dict_get d k = Some v -> In (k, v) d.
Proof.
  induction d as [|[k' v'] d IH]; simpl; [discriminate|].
  destruct (str_eqb k k') eqn:E.
  - apply str_eqb_eq in E. intros [= <-]. subst. now left.
  - auto.
Qed.

Lemma dict_get_key V (d : list (str * V)) k :
  In k (map fst d) <-> exists v, dict_get d k = Some v.
Proof.
  induction d as [|[k' v'] d IH]; simpl.
  - split; [tauto | intros [v H]; discriminate].
  - destruct (str_eqb k k') eqn:E.
    + apply str_eqb_eq in E. subst. split; eauto.
    + rewrite <- IH. split; [|tauto]. intros [H|H]; auto.
      subst. rewrite str_eqb_refl in E. discriminate.
Qed.

(** The numbers of the table are 1 to 66. *)
Lemma book_mapping_range k v :
  In (k, v) book_mapping -> (1 <= v <= 66)%Z.
Proof.
  assert (H : forallb (fun kv => (1 <=? snd kv)%Z && (snd kv <=? 66)%Z) book_mapping = true)
    by (vm_compute; reflexivity).
  rewrite forallb_forall in H. intros I. apply H in I. simpl in I.
  apply andb_true_iff in I as [I1 I2]. lia.
Qed.

(** No name of the table holds one of the characters 1, 2 or 3. *)
Lemma book_mapping_no_digit k v d :
  In (k, v) book_mapping -> ordinal_digit d = true -> ~ In d k.
Proof.
  assert (H : forallb (fun kv => forallb (fun c => negb (ordinal_digit c)) (fst kv))
                      book_mapping = true)
    by (vm_compute; reflexivity).
  rewrite forallb_forall in H. intros I D J. apply H in I. simpl in I.
  rewrite forallb_forall in I. apply I in J. rewrite D in J. discriminate.
Qed.

Lemma starts_with_firstn old s :
  starts_with old s = true -> firstn (length old) s = old.
Proof.
  revert s. induction old as [|a old IH]; intros [|b s]; simpl; auto; try discriminate.
  intros H. apply andb_true_iff in H as [E H]. apply N.eqb_eq in E. subst.
  f_equal. auto.
Qed.

(** A replacement either changes nothing or leaves the new text in. *)
Lemma replace_from_same_or_new old new d s :
  In d new ->
  forall skip,
    replace_from old new skip s = skipn skip s \/ In d (replace_from old new skip s).
Proof.
  intros D. induction s as [|c s IH]; intros skip; simpl.
  - left. now destruct skip.
  - destruct skip as [|n]; [|apply IH].
    destruct (starts_with old (c :: s)).
    + right. apply in_or_app. now left.
    + destruct (IH 0) as [E|I]; simpl in *.
      * left. now rewrite E.
      * right. now right.
Qed.

(** A character that is not in the old text survives a replacement. *)
Lemma replace_from_keeps o old new d s :
  ~ In d (o :: old) ->
  forall skip,
    (forall c, In c (firstn skip s) -> In c (o :: old)) ->
    In d s -> In d (replace_from (o :: old) new skip s).
Proof.
  intros D. induction s as [|c s IH]; intros skip F I; [destruct I|].
  destruct skip as [|n].
  - cbn [replace_from].
    destruct (starts_with (o :: old) (c :: s)) eqn:E.
    + apply in_or_app. right.
      pose proof (starts_with_firstn _ _ E) as P. simpl in P.
      injection P as Pc Ps.
      simpl. rewrite Nat.sub_0_r.
      apply IH.
      * intros x Hx. rewrite Ps in Hx. now right.
      * destruct I as [I|I]; [|exact I]. exfalso. apply D. left. congruence.
    + destruct I as [->|I]; [now left|]. right. apply IH; auto.
  - cbn [replace_from]. apply IH.
    + intros x Hx. apply F. simpl. now right.
    + destruct I as [->|I]; [|exact I]. exfalso. apply D, F. simpl. now left.
Qed.

Lemma replace_same_or_new old new d s :
  In d new -> replace old new s = s \/ In d (replace old new s).
Proof. intros D. apply (replace_from_same_or_new old new d s D 0). Qed.

Lemma replace_keeps o old new d s :
  ~ In d (o :: old) -> In d s -> In d (replace (o :: old) new s).
Proof.
  intros D I. apply replace_from_keeps; auto. simpl. tauto.
Qed.

Lemma dict_get_digit_name name d :
  ordinal_digit d = true -> In d name -> dict_get book_mapping name = None.
Proof.
  intros D I. destruct (dict_get book_mapping name) as [v|] eqn:E; auto.
  apply dict_get_in in E. exfalso.
  eapply book_mapping_no_digit; eauto.
Qed.

(** The second lookup never finds what the first missed. *)
Lemma respelt_lookup_fails book_raw :
  dict_get book_mapping book_raw = None ->
  dict_get book_mapping (respelt book_raw) = None.
Proof.
  intros H. unfold respelt.
  assert (D1 : In 49%N (U "1서")) by (vm_compute; auto).
  assert (D2 : In 50%N (U "2서")) by (vm_compute; auto).
  assert (D3 : In 51%N (U "3서")) by (vm_compute; auto).
  assert (K2 : forall d, ordinal_digit d = true -> ~ In d (U "이서"))
    by (intros d Hd I; vm_compute in I; intuition (subst; discriminate)).
  assert (K3 : forall d, ordinal_digit d = true -> ~ In d (U "삼서"))
    by (intros d Hd I; vm_compute in I; intuition (subst; discriminate)).
  destruct (replace_same_or_new (U "일서") _ _ book_raw D1) as [E1|I1].
  - rewrite E1.
    destruct (replace_same_or_new (U "이서") _ _ book_raw D2) as [E2|I2].
    + rewrite E2.
      destruct (replace_same_or_new (U "삼서") _ _ book_raw D3) as [E3|I3].
      * now rewrite E3.
      * now apply (dict_get_digit_name _ 51%N).
    + apply (dict_get_digit_name _ 50%N); [reflexivity|].
      apply (replace_keeps (chr "삼") (tl (U "삼서")) _ _ _); [now apply K3 | exact I2].
  - apply (dict_get_digit_name _ 49%N); [reflexivity|].
    apply (replace_keeps (chr "삼") (tl (U "삼서")) _ _ _); [now apply K3 |].
    apply (replace_keeps (chr "이") (tl (U "이서")) _ _ _); [now apply K2 | exact I1].
Qed.

Lemma lookup_book_exact book_raw :
  lookup_book book_raw = dict_get book_mapping book_raw.
Proof.
  unfold lookup_book.
  destruct (dict_get book_mapping book_raw) as [v|] eqn:E; simpl.
  - apply dict_get_in, book_mapping_range in E.
    destruct (v =? 0)%Z eqn:Z0; [apply Z.eqb_eq in Z0; lia | reflexivity].
  - now apply respelt_lookup_fails.
Qed.

Lemma lookup_book_range book_raw bk :
  lookup_book book_raw = Some bk -> (1 <= bk <= 66)%Z.
Proof.
  rewrite lookup_book_exact. intros H.
  now apply dict_get_in, book_mapping_range in H.
Qed.

End BookFacts.

(* ================================================================= *)
(** * The two loops of [parse_bible_text] *)

Section LoopFacts.

Lemma bind_ret A B (a : A) (f : A -> M B) : bind (ret a) f = f a.
Proof. unfold bind, ret. now destruct (f a). Qed.

Lemma bind_raise A B (e : exn) (f : A -> M B) : bind (raise e) f = raise e.
Proof. reflexivity. Qed.

Lemma for_skip X R (body : X -> M (flow R)) pre evs rest :
  Forall2 (fun x e => body x = (Returned Next, [e])) pre evs ->
  for_ (pre ++ rest) body = (fst (for_ rest body), evs ++ snd (for_ rest body)).
Proof.
  induction 1 as [|x e pre evs Hx _ IH]; simpl.
  - now destruct (for_ rest body).
  - rewrite Hx. simpl. rewrite IH. reflexivity.
Qed.

Lemma for_all_skipped X R (body : X -> M (flow R)) l evs :
  Forall2 (fun x e => body x = (Returned Next, [e])) l evs ->
  for_ l body = (Returned None, evs).
Proof.
  intros H. rewrite <- (app_nil_r l), (for_skip _ _ _ _ _ _ H). simpl.
  now rewrite app_nil_r.
Qed.

Lemma for_return X R (body : X -> M (flow R)) pre evs m post r :
  Forall2 (fun x e => body x = (Returned Next, [e])) pre evs ->
  body m = (Returned (Return r), []) ->
  for_ (pre ++ m :: post) body = (Returned (Some r), evs).
Proof.
  intros H Hm. rewrite (for_skip _ _ _ _ _ _ H). simpl. rewrite Hm. simpl.
  now rewrite app_nil_r.
Qed.

Lemma for_raise X R (body : X -> M (flow R)) pre evs m post e :
  Forall2 (fun x e => body x = (Returned Next, [e])) pre evs ->
  body m = (Raised e, []) ->
  for_ (pre ++ m :: post) body = (Raised e, evs).
Proof.
  intros H Hm. rewrite (for_skip _ _ _ _ _ _ H). simpl. rewrite Hm. simpl.
  now rewrite app_nil_r.
Qed.

End LoopFacts.

Section ParserFacts.
Context {py : Interpreter}.

Lemma int_group_digits m i w :
  group m i = Some w -> digits w -> fits w = true ->
  exists z, int w = Some z /\ int_group m i = ret z /\ (0 <= z)%Z.
Proof.
  intros G D L. destruct (int_of_digits _ D L) as [n Hn].
  exists (Z.of_N n). unfold int_group. rewrite G, Hn.
  repeat split; auto. lia.
Qed.

Lemma int_group_beyond m i w :
  group m i = Some w -> digits w -> fits w = false ->
  int_group m i = raise ValueError.
Proof.
  intros G D L. unfold int_group. now rewrite G, (int_beyond_limit _ D L).
Qed.

Lemma group_fits_some m i w : group m i = Some w -> group_fits m i = fits w.
Proof. intros G. unfold group_fits. now rewrite G. Qed.

Lemma resolves_not_unresolved m bk name : resolves m bk -> ~ unresolved m name.
Proof.
  intros (b & G & L & NZ) [G' U']. rewrite G in G'. inv G'.
  rewrite L in U'. simpl in U'. apply Z.eqb_eq in U'. contradiction.
Qed.

(** What one turn of the first loop does with a match of the range
    pattern whose numbers are within the limit of [int]. *)
Lemma range_body_spec text m results :
  In m (finditer pattern_range text) ->
  range_fits m = true ->
  exists book_raw c1 v1 c2 v2,
    group m 1 = Some book_raw
    /\ int_group m 2 = ret c1 /\ int_group m 3 = ret v1 /\ int_group m 5 = ret v2
    /\ match group m 4 with Some w4 => int w4 = Some c2 | None => c2 = c1 end
    /\ (0 <= c1 /\ 0 <= v1 /\ 0 <= c2 /\ 0 <= v2)%Z
    /\ range_body results m =
       if not_ (lookup_book book_raw)
       then (Returned Next, [WarnUnknownBookRange book_raw])
       else (Returned (Return (results ++
               range_units (value (lookup_book book_raw)) c1 v1 c2 v2)), []).
Proof.
  intros I L.
  destruct (range_groups _ _ I)
    as (w1 & w2 & w3 & w5 & G1 & G2 & G3 & G5 & D2 & D3 & D5 & G4).
  unfold range_fits in L. simpl in L.
  rewrite (group_fits_some _ _ _ G2), (group_fits_some _ _ _ G3),
    (group_fits_some _ _ _ G5), andb_true_r in L.
  apply andb_true_iff in L as [L2 L]. apply andb_true_iff in L as [L3 L].
  apply andb_true_iff in L as [L4 L5].
  destruct (int_group_digits _ _ _ G2 D2 L2) as (c1 & _ & I2 & P2).
  destruct (int_group_digits _ _ _ G3 D3 L3) as (v1 & _ & I3 & P3).
  destruct (int_group_digits _ _ _ G5 D5 L5) as (v2 & _ & I5 & P5).
  unfold range_body, resolve. rewrite I2, I3, I5, G1.
  destruct G4 as [G4 | (w4 & G4 & D4)].
  - exists w1, c1, v1, c1, v2. rewrite G4.
    repeat (split; [solve [auto] |]). simpl.
    destruct (not_ (lookup_book w1)); reflexivity.
  - rewrite (group_fits_some _ _ _ G4) in L4.
    destruct (int_group_digits _ _ _ G4 D4 L4) as (c2 & J4 & I4 & P4).
    exists w1, c1, v1, c2, v2. rewrite I4, G4.
    repeat (split; [solve [auto] |]).
    destruct D4 as [NE _]. destruct w4 as [|a w4]; [congruence|]. simpl.
    destruct (not_ (lookup_book w1)); reflexivity.
Qed.

(** A match of the range pattern with a number beyond the limit makes
    the turn raise, before the book is looked up. *)
Lemma range_body_beyond text m results :
  In m (finditer pattern_range text) ->
  range_fits m = false ->
  range_body results m = (Raised ValueError, []).
Proof.
  intros I L.
  destruct (range_groups _ _ I)
    as (w1 & w2 & w3 & w5 & G1 & G2 & G3 & G5 & D2 & D3 & D5 & G4).
  unfold range_fits in L. simpl in L.
  rewrite (group_fits_some _ _ _ G2), (group_fits_some _ _ _ G3),
    (group_fits_some _ _ _ G5), andb_true_r in L.
  unfold range_body.
  destruct (fits w2) eqn:L2;
    [|now rewrite (int_group_beyond _ _ _ G2 D2 L2)].
  destruct (int_group_digits _ _ _ G2 D2 L2) as (c1 & _ & I2 & _).
  rewrite I2, bind_ret.
  destruct (fits w3) eqn:L3;
    [|now rewrite (int_group_beyond _ _ _ G3 D3 L3)].
  destruct (int_group_digits _ _ _ G3 D3 L3) as (v1 & _ & I3 & _).
  rewrite I3, bind_ret. simpl in L.
  destruct G4 as [G4 | (w4 & G4 & D4)].
  - unfold group_fits in L. rewrite G4 in L. simpl in L.
    assert (T : truthy (group m 4) = false) by now rewrite G4.
    rewrite T. cbv iota.
    rewrite bind_ret. now rewrite (int_group_beyond _ _ _ G5 D5 L).
  - rewrite (group_fits_some _ _ _ G4) in L.
    assert (T : truthy (group m 4) = true).
    { rewrite G4. destruct D4 as [NE _]. now destruct w4. }
    rewrite T. cbv iota.
    destruct (fits w4) eqn:L4;
      [|now rewrite (int_group_beyond _ _ _ G4 D4 L4)].
    destruct (int_group_digits _ _ _ G4 D4 L4) as (c2 & _ & I4 & _).
    rewrite I4, bind_ret. simpl in L.
    now rewrite (int_group_beyond _ _ _ G5 D5 L).
Qed.

(** What one turn of the second loop does with a match of the single
    pattern whose numbers are within the limit of [int]. *)
Lemma single_body_spec text m results :
  In m (finditer pattern_single text) ->
  single_fits m = true ->
  exists book_raw ch v,
    group m 1 = Some book_raw
    /\ int_group m 2 = ret ch /\ int_group m 3 = ret v
    /\ (0 <= ch /\ 0 <= v)%Z
    /\ single_body results m =
       if not_ (lookup_book book_raw)
       then (Returned Next, [WarnUnknownBookSingle book_raw])
       else (Returned (Return (results ++
               [ {| book := value (lookup_book book_raw); chapter := ch;
                    start := v; end_ := v |} ])), []).
Proof.
  intros I L.
  destruct (single_groups _ _ I) as (w1 & w2 & w3 & G1 & G2 & G3 & D2 & D3).
  unfold single_fits in L. simpl in L.
  rewrite (group_fits_some _ _ _ G2), (group_fits_some _ _ _ G3), andb_true_r in L.
  apply andb_true_iff in L as [L2 L3].
  destruct (int_group_digits _ _ _ G2 D2 L2) as (ch & _ & I2 & P2).
  destruct (int_group_digits _ _ _ G3 D3 L3) as (v & _ & I3 & P3).
  unfold single_body, resolve. rewrite I2, I3, G1.
  exists w1, ch, v. repeat (split; [solve [auto] |]). simpl.
  destruct (not_ (lookup_book w1)); reflexivity.
Qed.

Lemma single_body_beyond text m results :
  In m (finditer pattern_single text) ->
  single_fits m = false ->
  single_body results m = (Raised ValueError, []).
Proof.
  intros I L.
  destruct (single_groups _ _ I) as (w1 & w2 & w3 & G1 & G2 & G3 & D2 & D3).
  unfold single_fits in L. simpl in L.
  rewrite (group_fits_some _ _ _ G2), (group_fits_some _ _ _ G3), andb_true_r in L.
  unfold single_body.
  destruct (fits w2) eqn:L2;
    [|now rewrite (int_group_beyond _ _ _ G2 D2 L2)].
  destruct (int_group_digits _ _ _ G2 D2 L2) as (ch & _ & I2 & _).
  rewrite I2, bind_ret. simpl in L.
  now rewrite (int_group_beyond _ _ _ G3 D3 L).
Qed.

Lemma range_body_unresolved text m name results :
  In m (finditer pattern_range text) -> range_fits m = true ->
  unresolved m name ->
  range_body results m = (Returned Next, [WarnUnknownBookRange name]).
Proof.
  intros I L [G N0].
  destruct (range_body_spec text m results I L)
    as (b & c1 & v1 & c2 & v2 & G1 & _ & _ & _ & _ & _ & E).
  rewrite G in G1. inv G1. now rewrite N0 in E.
Qed.

Lemma single_body_unresolved text m name results :
  In m (finditer pattern_single text) -> single_fits m = true ->
  unresolved m name ->
  single_body results m = (Returned Next, [WarnUnknownBookSingle name]).
Proof.
  intros I L [G N0].
  destruct (single_body_spec text m results I L) as (b & ch & v & G1 & _ & _ & _ & E).
  rewrite G in G1. inv G1. now rewrite N0 in E.
Qed.

Lemma range_body_resolved text m bk results :
  In m (finditer pattern_range text) -> range_fits m = true ->
  resolves m bk ->
  exists c1 v1 c2 v2,
    int_group m 2 = ret c1 /\ int_group m 3 = ret v1 /\ int_group m 5 = ret v2
    /\ match group m 4 with Some w4 => int w4 = Some c2 | None => c2 = c1 end
    /\ (0 <= c1 /\ 0 <= v1 /\ 0 <= c2 /\ 0 <= v2)%Z
    /\ range_body results m =
       (Returned (Return (results ++ range_units bk c1 v1 c2 v2)), []).
Proof.
  intros I L (name & G & Lk & NZ).
  destruct (range_body_spec text m results I L)
    as (b & c1 & v1 & c2 & v2 & G1 & I2 & I3 & I5 & I4 & P & E).
  rewrite G in G1. inv G1. rewrite Lk in E. simpl in E.
  apply Z.eqb_neq in NZ. rewrite NZ in E.
  exists c1, v1, c2, v2. auto 10.
Qed.

Lemma single_body_resolved text m bk results :
  In m (finditer pattern_single text) -> single_fits m = true ->
  resolves m bk ->
  exists ch v,
    int_group m 2 = ret ch /\ int_group m 3 = ret v /\ (0 <= ch /\ 0 <= v)%Z
    /\ single_body results m =
       (Returned (Return (results ++
          [ {| book := bk; chapter := ch; start := v; end_ := v |} ])), []).
Proof.
  intros I L (name & G & Lk & NZ).
  destruct (single_body_spec text m results I L) as (b & ch & v & G1 & I2 & I3 & P & E).
  rewrite G in G1. inv G1. rewrite Lk in E. simpl in E.
  apply Z.eqb_neq in NZ. rewrite NZ in E.
  exists ch, v. auto.
Qed.

(** A match of either pattern names a book that resolves or does not. *)
Lemma group1_classify m w1 :
  group m 1 = Some w1 -> (exists bk, resolves m bk) \/ unresolved m w1.
Proof.
  intros G. destruct (lookup_book w1) as [bk|] eqn:L.
  - left. exists bk, w1. repeat split; auto.
    apply lookup_book_range in L. lia.
  - right. split; auto. now rewrite L.
Qed.

Lemma range_classify text m :
  In m (finditer pattern_range text) ->
  (exists bk, resolves m bk) \/ (exists name, unresolved m name).
Proof.
  intros I. destruct (range_groups _ _ I) as (w1 & ? & ? & ? & G1 & _).
  destruct (group1_classify _ _ G1); eauto.
Qed.

Lemma single_classify text m :
  In m (finditer pattern_single text) ->
  (exists bk, resolves m bk) \/ (exists name, unresolved m name).
Proof.
  intros I. destruct (single_groups _ _ I) as (w1 & ? & ? & G1 & _).
  destruct (group1_classify _ _ G1); eauto.
Qed.

(** A sequence of matches stops a loop at its first match that resolves
    or that holds a number beyond the limit, unless there is none. *)
Lemma first_stop (fit : rmatch -> bool) (l : list rmatch) :
  (forall m, In m l -> (exists bk, resolves m bk) \/ (exists name, unresolved m name)) ->
  (exists pre m post names bk,
      l = pre ++ m :: post /\ Forall2 unresolved pre names
      /\ Forall (fun p => fit p = true) pre /\ resolves m bk /\ fit m = true)
  \/ (exists pre m post names,
      l = pre ++ m :: post /\ Forall2 unresolved pre names
      /\ Forall (fun p => fit p = true) pre /\ fit m = false)
  \/ (exists names, Forall2 unresolved l names /\ Forall (fun p => fit p = true) l).
Proof.
  induction l as [|m l IH]; intros C.
  - right. right. exists []. split; constructor.
  - destruct (fit m) eqn:Fm.
    + destruct (C m (or_introl eq_refl)) as [[bk R] | [name Un]].
      * left. exists [], m, l, [], bk. repeat split; auto.
      * destruct IH
          as [(pre & m' & post & names & bk & -> & F & Ff & R & Fm')
             | [(pre & m' & post & names & -> & F & Ff & Fm')
               | (names & F & Ff)]].
        -- intros x Hx. apply C. now right.
        -- left. exists (m :: pre), m', post, (name :: names), bk.
           repeat split; auto.
        -- right. left. exists (m :: pre), m', post, (name :: names).
           repeat split; auto.
        -- right. right. exists (name :: names). split; auto.
    + right. left. exists [], m, l, []. repeat split; auto.
Qed.

Lemma range_skips text pre names results :
  (forall p, In p pre -> In p (finditer pattern_range text)) ->
  Forall (fun p => range_fits p = true) pre ->
  Forall2 unresolved pre names ->
  Forall2 (fun p e => range_body results p = (Returned Next, [e]))
          pre (map WarnUnknownBookRange names).
Proof.
  intros Sub Ff F. induction F as [|p n pre names Hp _ IH]; simpl; constructor.
  - inv Ff. eapply range_body_unresolved; eauto. apply Sub. now left.
  - inv Ff. apply IH; auto. intros x Hx. apply Sub. now right.
Qed.

Lemma single_skips text pre names results :
  (forall p, In p pre -> In p (finditer pattern_single text)) ->
  Forall (fun p => single_fits p = true) pre ->
  Forall2 unresolved pre names ->
  Forall2 (fun p e => single_body results p = (Returned Next, [e]))
          pre (map WarnUnknownBookSingle names).
Proof.
  intros Sub Ff F. induction F as [|p n pre names Hp _ IH]; simpl; constructor.
  - inv Ff. eapply single_body_unresolved; eauto. apply Sub. now left.
  - inv Ff. apply IH; auto. intros x Hx. apply Sub. now right.
Qed.

(** The ways [parse_from] can end. *)
Lemma parse_from_range_return text pre m post sm evs units :
  Forall2 (fun p e => range_body [] p = (Returned Next, [e])) pre evs ->
  range_body [] m = (Returned (Return units), []) ->
  parse_from text (pre ++ m :: post) sm = (Returned units, evs).
Proof.
  intros F Hm. unfold parse_from. rewrite (for_return _ _ _ _ _ _ _ _ F Hm). simpl.
  now rewrite app_nil_r.
Qed.

Lemma parse_from_range_raise text pre m post sm evs e :
  Forall2 (fun p e => range_body [] p = (Returned Next, [e])) pre evs ->
  range_body [] m = (Raised e, []) ->
  parse_from text (pre ++ m :: post) sm = (Raised e, evs).
Proof.
  intros F Hm. unfold parse_from. now rewrite (for_raise _ _ _ _ _ _ _ _ F Hm).
Qed.

Lemma parse_from_single_return text rm pre m post evs evs' units :
  Forall2 (fun p e => range_body [] p = (Returned Next, [e])) rm evs ->
  Forall2 (fun p e => single_body [] p = (Returned Next, [e])) pre evs' ->
  single_body [] m = (Returned (Return units), []) ->
  parse_from text rm (pre ++ m :: post) = (Returned units, evs ++ evs').
Proof.
  intros F F' Hm. unfold parse_from.
  rewrite (for_all_skipped _ _ _ _ _ F). simpl.
  rewrite (for_return _ _ _ _ _ _ _ _ F' Hm). simpl. now rewrite app_nil_r.
Qed.

Lemma parse_from_single_raise text rm pre m post evs evs' e :
  Forall2 (fun p e => range_body [] p = (Returned Next, [e])) rm evs ->
  Forall2 (fun p e => single_body [] p = (Returned Next, [e])) pre evs' ->
  single_body [] m = (Raised e, []) ->
  parse_from text rm (pre ++ m :: post) = (Raised e, evs ++ evs').
Proof.
  intros F F' Hm. unfold parse_from.
  rewrite (for_all_skipped _ _ _ _ _ F). simpl.
  now rewrite (for_raise _ _ _ _ _ _ _ _ F' Hm).
Qed.

Lemma parse_from_no_return text rm sm evs evs' :
  Forall2 (fun p e => range_body [] p = (Returned Next, [e])) rm evs ->
  Forall2 (fun p e => single_body [] p = (Returned Next, [e])) sm evs' ->
  parse_from text rm sm =
  (Returned [], evs ++ evs' ++ match strip text with
                               | [] => []
                               | _ :: _ => [WarnParseFailed text]
                               end).
Proof.
  intros F F'. unfold parse_from.
  rewrite (for_all_skipped _ _ _ _ _ F). simpl.
  rewrite (for_all_skipped _ _ _ _ _ F'). simpl.
  destruct (strip text); simpl; now rewrite ?app_nil_r.
Qed.

End ParserFacts.

(* ================================================================= *)
(** * Texts without a book name *)

Section NoMatch.
Context {py : Interpreter}.

Lemma hangul_not_space c : is_hangul c = true -> isspace c = false.
Proof.
  unfold is_hangul, isspace. intros H.
  apply andb_true_iff in H as [H1 H2]. apply N.leb_le in H1, H2.
  assert (L : forall k, (k < 0xAC00)%N -> (c <=? k)%N = false)
    by (intros k Hk; apply N.leb_gt; lia).
  assert (E : forall k, (k < 0xAC00)%N -> (c =? k)%N = false)
    by (intros k Hk; apply N.eqb_neq; lia).
  rewrite !L, !E by reflexivity.
  now rewrite !andb_false_r.
Qed.

Lemma hangul_class c : in_set (Range (chr "가") (chr "힣")) c = is_hangul c.
Proof. reflexivity. Qed.

(** Both patterns begin with a Hangul syllable. *)
Lemma book_name_needs_hangul A r s caps (k : str -> captures -> option A) :
  match s with [] => True | c :: _ => is_hangul c = false end ->
  bt (book_name >> r) s caps k = None.
Proof.
  intros H. unfold book_name. cbn [bt].
  destruct s as [|c s]; [reflexivity|].
  cbn [rep_greedy]. rewrite hangul_class, H. reflexivity.
Qed.

Lemma finditer_from_no_hangul r s :
  forallb (fun c => negb (is_hangul c)) s = true ->
  forall skip, finditer_from (book_name >> r) skip s = [].
Proof.
  induction s as [|c s IH]; intros F skip.
  - destruct skip; reflexivity.
  - simpl in F. apply andb_true_iff in F as [Fc Fs].
    apply negb_true_iff in Fc.
    destruct skip; cbn [finditer_from]; auto.
    unfold match_here. rewrite book_name_needs_hangul by exact Fc. auto.
Qed.

Lemma blank_has_no_match r text :
  strip text = [] -> finditer (book_name >> r) text = [].
Proof.
  intros H. apply strip_with_nil in H. apply finditer_from_no_hangul.
  rewrite forallb_forall in *. intros c Hc. apply H in Hc.
  destruct (is_hangul c) eqn:E; auto.
  apply hangul_not_space in E. congruence.
Qed.

End NoMatch.

(* ================================================================= *)
(** * How [parse_bible_text] ends *)

Section ParserOutcomes.
Context {py : Interpreter}.

(** The first resolvable match of the range pattern decides the result,
    whatever follows it, when the numbers met so far are within the
    limit. *)
Lemma range_hit text pre m post names bk :
  finditer pattern_range text = pre ++ m :: post ->
  Forall2 unresolved pre names ->
  Forall (fun p => range_fits p = true) pre ->
  resolves m bk -> range_fits m = true ->
  exists c1 v1 c2 v2,
    int_group m 2 = ret c1 /\ int_group m 3 = ret v1 /\ int_group m 5 = ret v2
    /\ match group m 4 with Some w4 => int w4 = Some c2 | None => c2 = c1 end
    /\ (0 <= c1 /\ 0 <= v1 /\ 0 <= c2 /\ 0 <= v2)%Z
    /\ range_body [] m = (Returned (Return (range_units bk c1 v1 c2 v2)), [])
    /\ forall post' sm',
        parse_from text (pre ++ m :: post') sm'
        = (Returned (range_units bk c1 v1 c2 v2), map WarnUnknownBookRange names).
Proof.
  intros E F Ff R L.
  assert (Im : In m (finditer pattern_range text))
    by (rewrite E; apply in_or_app; right; now left).
  destruct (range_body_resolved text m bk [] Im L R)
    as (c1 & v1 & c2 & v2 & I2 & I3 & I5 & I4 & P & B).
  simpl in B. exists c1, v1, c2, v2. repeat (split; [solve [auto] |]).
  intros post' sm'. apply parse_from_range_return; auto.
  apply range_skips with (text := text); auto.
  intros p Hp. rewrite E. apply in_or_app. now left.
Qed.

(** A match of the range pattern with a number beyond the limit, met
    before any match has resolved, makes the function raise. *)
Lemma range_beyond text pre m post names :
  finditer pattern_range text = pre ++ m :: post ->
  Forall2 unresolved pre names ->
  Forall (fun p => range_fits p = true) pre ->
  range_fits m = false ->
  forall post' sm',
    parse_from text (pre ++ m :: post') sm'
    = (Raised ValueError, map WarnUnknownBookRange names).
Proof.
  intros E F Ff L post' sm'.
  assert (Im : In m (finditer pattern_range text))
    by (rewrite E; apply in_or_app; right; now left).
  apply parse_from_range_raise.
  - apply range_skips with (text := text); auto.
    intros p Hp. rewrite E. apply in_or_app. now left.
  - now apply range_body_beyond with (text := text).
Qed.

(** When no match of the range pattern resolves, the first resolvable
    match of the single pattern decides the result. *)
Lemma single_hit text names pre m post names' bk :
  Forall2 unresolved (finditer pattern_range text) names ->
  Forall (fun p => range_fits p = true) (finditer pattern_range text) ->
  finditer pattern_single text = pre ++ m :: post ->
  Forall2 unresolved pre names' ->
  Forall (fun p => single_fits p = true) pre ->
  resolves m bk -> single_fits m = true ->
  exists ch v,
    int_group m 2 = ret ch /\ int_group m 3 = ret v /\ (0 <= ch /\ 0 <= v)%Z
    /\ single_body [] m =
       (Returned (Return [ {| book := bk; chapter := ch; start := v; end_ := v |} ]), [])
    /\ forall post',
        parse_from text (finditer pattern_range text) (pre ++ m :: post')
        = (Returned [ {| book := bk; chapter := ch; start := v; end_ := v |} ],
           map WarnUnknownBookRange names ++ map WarnUnknownBookSingle names').
Proof.
  intros Fr Frf E F Ff R L.
  assert (Im : In m (finditer pattern_single text))
    by (rewrite E; apply in_or_app; right; now left).
  destruct (single_body_resolved text m bk [] Im L R) as (ch & v & I2 & I3 & P & B).
  simpl in B. exists ch, v. repeat (split; [solve [auto] |]).
  intros post'. apply parse_from_single_return; auto.
  - apply range_skips with (text := text); auto.
  - apply single_skips with (text := text); auto.
    intros p Hp. rewrite E. apply in_or_app. now left.
Qed.

Lemma single_beyond text names pre m post names' :
  Forall2 unresolved (finditer pattern_range text) names ->
  Forall (fun p => range_fits p = true) (finditer pattern_range text) ->
  finditer pattern_single text = pre ++ m :: post ->
  Forall2 unresolved pre names' ->
  Forall (fun p => single_fits p = true) pre ->
  single_fits m = false ->
  forall post',
    parse_from text (finditer pattern_range text) (pre ++ m :: post')
    = (Raised ValueError,
       map WarnUnknownBookRange names ++ map WarnUnknownBookSingle names').
Proof.
  intros Fr Frf E F Ff L post'.
  assert (Im : In m (finditer pattern_single text))
    by (rewrite E; apply in_or_app; right; now left).
  apply parse_from_single_raise.
  - apply range_skips with (text := text); auto.
  - apply single_skips with (text := text); auto.
    intros p Hp. rewrite E. apply in_or_app. now left.
  - now apply single_body_beyond with (text := text).
Qed.

Lemma no_hit text names names' :
  Forall2 unresolved (finditer pattern_range text) names ->
  Forall (fun p => range_fits p = true) (finditer pattern_range text) ->
  Forall2 unresolved (finditer pattern_single text) names' ->
  Forall (fun p => single_fits p = true) (finditer pattern_single text) ->
  parse_bible_text text =
  (Returned [], map WarnUnknownBookRange names ++ map WarnUnknownBookSingle names'
                ++ match strip text with
                   | [] => []
                   | _ :: _ => [WarnParseFailed text]
                   end).
Proof.
  intros Fr Frf Fs Fsf. apply parse_from_no_return.
  - apply range_skips with (text := text); auto.
  - apply single_skips with (text := text); auto.
Qed.

(** [parse_bible_text] ends in one of five ways: three in which it
    returns, two in which [int] raises on a number beyond its limit. *)
Lemma parse_cases text :
  (exists pre m post names bk c1 v1 c2 v2,
      finditer pattern_range text = pre ++ m :: post
      /\ Forall2 unresolved pre names /\ resolves m bk
      /\ (0 <= c1 /\ 0 <= v1 /\ 0 <= c2 /\ 0 <= v2)%Z
      /\ parse_bible_text text =
         (Returned (range_units bk c1 v1 c2 v2), map WarnUnknownBookRange names))
  \/ (exists names pre m post names' bk ch v,
      Forall2 unresolved (finditer pattern_range text) names
      /\ finditer pattern_single text = pre ++ m :: post
      /\ Forall2 unresolved pre names' /\ resolves m bk
      /\ (0 <= ch /\ 0 <= v)%Z
      /\ parse_bible_text text =
         (Returned [ {| book := bk; chapter := ch; start := v; end_ := v |} ],
          map WarnUnknownBookRange names ++ map WarnUnknownBookSingle names'))
  \/ (exists names names',
      Forall2 unresolved (finditer pattern_range text) names
      /\ Forall2 unresolved (finditer pattern_single text) names'
      /\ parse_bible_text text =
         (Returned [], map WarnUnknownBookRange names ++ map WarnUnknownBookSingle names'
                       ++ match strip text with
                          | [] => []
                          | _ :: _ => [WarnParseFailed text]
                          end))
  \/ (exists log, parse_bible_text text = (Raised ValueError, log)).
Proof.
  destruct (first_stop range_fits (finditer pattern_range text) (range_classify text))
    as [(pre & m & post & names & bk & E & F & Ff & R & L)
       | [(pre & m & post & names & E & F & Ff & L) | (names & Fr & Frf)]].
  - left.
    destruct (range_hit text pre m post names bk E F Ff R L)
      as (c1 & v1 & c2 & v2 & _ & _ & _ & _ & P & _ & H).
    exists pre, m, post, names, bk, c1, v1, c2, v2.
    repeat (split; [solve [auto] |]).
    unfold parse_bible_text. rewrite E. apply H.
  - do 3 right. exists (map WarnUnknownBookRange names).
    unfold parse_bible_text. rewrite E.
    exact (range_beyond text pre m post names E F Ff L post _).
  - right.
    destruct (first_stop single_fits (finditer pattern_single text) (single_classify text))
      as [(pre & m & post & names' & bk & E & F & Ff & R & L)
         | [(pre & m & post & names' & E & F & Ff & L) | (names' & Fs & Fsf)]].
    + left.
      destruct (single_hit text names pre m post names' bk Fr Frf E F Ff R L)
        as (ch & v & _ & _ & P & _ & H).
      exists names, pre, m, post, names', bk, ch, v.
      repeat (split; [solve [auto] |]).
      unfold parse_bible_text. rewrite E. apply H.
    + do 2 right.
      exists (map WarnUnknownBookRange names ++ map WarnUnknownBookSingle names').
      unfold parse_bible_text. rewrite E.
      exact (single_beyond text names pre m post names' Fr Frf E F Ff L post).
    + right. left. exists names, names'. repeat (split; [solve [auto] |]).
      now apply no_hit.
Qed.

(** [int] is the only source of an exception in [parse_bible_text]. *)
Lemma parse_outcomes text :
  (exists units log, parse_bible_text text = (Returned units, log))
  \/ (exists log, parse_bible_text text = (Raised ValueError, log)).
Proof.
  destruct (parse_cases text)
    as [(? & ? & ? & ? & ? & ? & ? & ? & ? & _ & _ & _ & _ & H)
       | [(? & ? & ? & ? & ? & ? & ? & ? & _ & _ & _ & _ & _ & H)
         | [(? & ? & _ & _ & H) | H]]]; eauto.
Qed.

Lemma unresolved_all_in l names m bk :
  Forall2 unresolved l names -> In m l -> resolves m bk -> False.
Proof.
  induction 1 as [|x n l names Hx _ IH]; intros I R; [destruct I|].
  destruct I as [<- | I]; [|auto].
  exact (resolves_not_unresolved _ _ _ R Hx).
Qed.

(** ** The texts of the examples *)

Example cross_chapter_example :
  parse_bible_text (U "민수기 23:27~24:9")
  = (Returned [ {| book := 4; chapter := 23; start := 27; end_ := 27 |};
                {| book := 4; chapter := 24; start := 9; end_ := 9 |} ], []).
Proof. vm_compute. reflexivity. Qed.

Example same_chapter_written_twice :
  parse_bible_text (U "민수기 23:27~23:29")
  = (Returned [ {| book := 4; chapter := 23; start := 27; end_ := 29 |} ], []).
Proof. vm_compute. reflexivity. Qed.

Example single_example :
  parse_bible_text (U "시편 1:1")
  = (Returned [ {| book := 19; chapter := 1; start := 1; end_ := 1 |} ], []).
Proof. vm_compute. reflexivity. Qed.

Example backwards_range :
  parse_bible_text (U "시편 0:5~3")
  = (Returned [ {| book := 19; chapter := 0; start := 5; end_ := 3 |} ], []).
Proof. vm_compute. reflexivity. Qed.

Example verse_zero :
  parse_bible_text (U "시편 1:0")
  = (Returned [ {| book := 19; chapter := 1; start := 0; end_ := 0 |} ], []).
Proof. vm_compute. reflexivity. Qed.

Example unknown_range_then_single :
  parse_bible_text (U "가나다 1:1~2 시편 3:4")
  = (Returned [ {| book := 19; chapter := 3; start := 4; end_ := 4 |} ],
     [ WarnUnknownBookRange (U "가나다"); WarnUnknownBookSingle (U "가나다") ]).
Proof. vm_compute. reflexivity. Qed.

Example unknown_range_without_single_tier :
  parse_from (U "가나다 1:1~2 시편 3:4")
             (finditer pattern_range (U "가나다 1:1~2 시편 3:4")) []
  = (Returned [],
     [ WarnUnknownBookRange (U "가나다");
       WarnParseFailed (U "가나다 1:1~2 시편 3:4") ]).
Proof. vm_compute. reflexivity. Qed.

Example numeral_epistle_unknown :
  parse_bible_text (U "요한1서 1:1")
  = (Returned [],
     [ WarnUnknownBookSingle (U "요한1서"); WarnParseFailed (U "요한1서 1:1") ]).
Proof. vm_compute. reflexivity. Qed.

End ParserOutcomes.

Example long_number_single_raises :
  parse_bible_text (py := ascii_only) long_number_single = (Raised ValueError, []).
Proof. vm_compute. reflexivity. Qed.


(* ================================================================= *)
(** * The reference parser: the properties of the specification *)

Section ParserProperties.
Context {py : Interpreter}.

(** C1, as amended.  When the first match of the range form names a book
    that resolves, carries an explicit second chapter number, and holds no
    number beyond the limit of [int], the parser emits the two boundary
    units [{book, chapter1, startVerse, startVerse}] and [{book, chapter2,
    endVerse, endVerse}], in that order, provided the two chapter numbers
    differ; when they are equal it emits the single unit [{book, chapter1,
    startVerse, endVerse}].  When that match holds a number beyond the
    limit, [int] raises ValueError and nothing is returned.  In particular
    "민수기 23:27~24:9" gives [{4, 23, 27, 27}] and [{4, 24, 9, 9}]. *)
Theorem cross_chapter_range_units :
  (forall text m rest bk w4,
      finditer pattern_range text = m :: rest ->
      resolves m bk ->
      group m 4 = Some w4 ->
      range_fits m = true ->
      exists c1 v1 c2 v2,
        int_group m 2 = ret c1 /\ int_group m 3 = ret v1
        /\ int w4 = Some c2 /\ int_group m 5 = ret v2
        /\ (c1 <> c2 ->
            parse_bible_text text =
            (Returned [ {| book := bk; chapter := c1; start := v1; end_ := v1 |};
                        {| book := bk; chapter := c2; start := v2; end_ := v2 |} ], []))
        /\ (c1 = c2 ->
            parse_bible_text text =
            (Returned [ {| book := bk; chapter := c1; start := v1; end_ := v2 |} ], [])))
  /\ (forall text m rest,
      finditer pattern_range text = m :: rest ->
      range_fits m = false ->
      parse_bible_text text = (Raised ValueError, []))
  /\ parse_bible_text (U "민수기 23:27~24:9")
     = (Returned [ {| book := 4; chapter := 23; start := 27; end_ := 27 |};
                   {| book := 4; chapter := 24; start := 9; end_ := 9 |} ], []).
Proof.
  split; [|split; [|exact cross_chapter_example]].
  - intros text m rest bk w4 E R G L.
    destruct (range_hit text [] m rest [] bk E (Forall2_nil _) (Forall_nil _) R L)
      as (c1 & v1 & c2 & v2 & I2 & I3 & I5 & I4 & _ & _ & H).
    rewrite G in I4. exists c1, v1, c2, v2.
    repeat (split; [solve [auto] |]).
    specialize (H rest (finditer pattern_single text)). simpl in H.
    unfold parse_bible_text. rewrite E, H. unfold range_units.
    split; intros C.
    + apply Z.eqb_neq in C. now rewrite C.
    + apply Z.eqb_eq in C. now rewrite C.
  - intros text m rest E L. unfold parse_bible_text. rewrite E.
    exact (range_beyond text [] m rest [] E (Forall2_nil _) (Forall_nil _) L rest _).
Qed.

(** C3, as amended.  Every unit the parser returns, for any input, has a
    book number in 1..66 and a chapter, a start verse and an end verse that
    are not negative (they may be zero, and the end verse may lie before
    the start verse). *)
Theorem units_in_table_and_not_negative text units log :
  parse_bible_text text = (Returned units, log) ->
  Forall unit_in_table units.
Proof.
  intros H.
  assert (B : forall m bk, resolves m bk -> (1 <= bk <= 66)%Z).
  { intros m bk (name & _ & L & _). now apply lookup_book_range in L. }
  destruct (parse_cases text)
    as [(pre & m & post & names & bk & c1 & v1 & c2 & v2 & _ & _ & R & P & E)
       | [(names & pre & m & post & names' & bk & ch & v & _ & _ & _ & R & P & E)
         | [(names & names' & _ & _ & E) | [log' E]]]];
    rewrite E in H; inv H.
  - apply B in R. unfold range_units.
    destruct (negb (c1 =? c2)%Z); repeat constructor; simpl; lia.
  - apply B in R. repeat constructor; simpl; lia.
  - constructor.
Qed.

(** C4, as amended.  The single form is tried only if no match of the
    range form names a book that resolves: for every input with at least
    one such match the result does not depend on the matches of the single
    form, which contribute neither a unit nor a line of the log. *)
Theorem resolved_range_match_excludes_single_form text :
  (exists m bk, In m (finditer pattern_range text) /\ resolves m bk) ->
  forall single_matches,
    parse_from text (finditer pattern_range text) single_matches
    = parse_bible_text text.
Proof.
  intros (m0 & bk0 & I0 & R0) sm.
  destruct (first_stop range_fits (finditer pattern_range text) (range_classify text))
    as [(pre & m & post & names & bk & E & F & Ff & R & L)
       | [(pre & m & post & names & E & F & Ff & L) | (names & Fr & _)]].
  - destruct (range_hit text pre m post names bk E F Ff R L)
      as (c1 & v1 & c2 & v2 & _ & _ & _ & _ & _ & _ & H).
    unfold parse_bible_text. rewrite E. now rewrite !H.
  - pose proof (range_beyond text pre m post names E F Ff L) as H.
    unfold parse_bible_text. rewrite E. now rewrite !H.
  - destruct (unresolved_all_in _ _ _ _ Fr I0 R0).
Qed.


(** C8.  An empty or whitespace-only input gives an empty result and
    nothing in the log; an input that is not empty once trimmed and that
    matches neither form gives an empty result and exactly the line
    "Failed to parse" in the log: the two are told apart by the log. *)
Theorem blank_is_silent_unparsable_is_logged text :
  (strip text = [] -> parse_bible_text text = (Returned [], []))
  /\ (strip text <> [] ->
      finditer pattern_range text = [] ->
      finditer pattern_single text = [] ->
      parse_bible_text text = (Returned [], [WarnParseFailed text])).
Proof.
  split.
  - intros H. unfold parse_bible_text, pattern_range, pattern_single.
    rewrite !blank_has_no_match by exact H.
    unfold parse_from. simpl. now rewrite H.
  - intros H Er Es. unfold parse_bible_text. rewrite Er, Es.
    unfold parse_from. simpl. destruct (strip text); [congruence | reflexivity].
Qed.

(** C9, as amended.  For every input with no match of the range form and
    with a match of the single form whose book name resolves, the parser
    emits exactly one unit [{book, chapter, verse, verse}], that of the
    first such match, provided that match and the matches before it hold
    no number beyond the limit of [int]; a first such match exists as
    soon as some match resolves.  In particular "시편 1:1" gives
    [{19, 1, 1, 1}]. *)
Theorem single_form_one_unit :
  (forall text pre m post names bk,
      finditer pattern_range text = [] ->
      finditer pattern_single text = pre ++ m :: post ->
      Forall2 unresolved pre names ->
      resolves m bk ->
      Forall (fun p => single_fits p = true) (pre ++ [m]) ->
      exists ch v,
        int_group m 2 = ret ch /\ int_group m 3 = ret v
        /\ parse_bible_text text =
           (Returned [ {| book := bk; chapter := ch; start := v; end_ := v |} ],
            map WarnUnknownBookSingle names))
  /\ (forall text m0 bk0,
      In m0 (finditer pattern_single text) ->
      resolves m0 bk0 ->
      exists pre m post names bk,
        finditer pattern_single text = pre ++ m :: post
        /\ Forall2 unresolved pre names /\ resolves m bk)
  /\ parse_bible_text (U "시편 1:1")
     = (Returned [ {| book := 19; chapter := 1; start := 1; end_ := 1 |} ], []).
Proof.
  split; [|split; [|exact single_example]].
  - intros text pre m post names bk Er E F R Ff.
    apply Forall_app in Ff as [Ff Fm]. inv Fm.
    assert (Fr : Forall2 unresolved (finditer pattern_range text) [])
      by (rewrite Er; constructor).
    assert (Frf : Forall (fun p => range_fits p = true) (finditer pattern_range text))
      by (rewrite Er; constructor).
    destruct (single_hit text [] pre m post names bk Fr Frf E F Ff R H1)
      as (ch & v & I2 & I3 & _ & _ & H).
    exists ch, v. repeat (split; [solve [auto] |]).
    unfold parse_bible_text. rewrite E. apply H.
  - intros text m0 bk0 I0 R0.
    destruct (first_stop (fun _ => true) (finditer pattern_single text)
                (single_classify text))
      as [(pre & m & post & names & bk & E & F & _ & R & _)
         | [(pre & m & post & names & _ & _ & _ & L) | (names & Fs & _)]].
    + exists pre, m, post, names, bk. auto.
    + discriminate L.
    + destruct (unresolved_all_in _ _ _ _ Fs I0 R0).
Qed.

End ParserProperties.

(** C10.  The second lookup, of the name with '일서', '이서' and '삼서'
    respelt '1서', '2서' and '3서', never resolves a name the exact lookup
    missed, since no key of the table holds a numeral; the lookup of a
    name is the exact lookup, and a name resolves if and only if it is a
    key of the table. *)
Theorem respelt_lookup_never_resolves :
  (forall book_raw,
      not_ (dict_get book_mapping book_raw) = true ->
      not_ (dict_get book_mapping (respelt book_raw)) = true)
  /\ (forall book_raw, lookup_book book_raw = dict_get book_mapping book_raw)
  /\ (forall book_raw,
      not_ (lookup_book book_raw) = false <-> In book_raw (map fst book_mapping)).
Proof.
  assert (NZ : forall k v, dict_get book_mapping k = Some v -> (v =? 0)%Z = false).
  { intros k v H. apply dict_get_in, book_mapping_range in H.
    apply Z.eqb_neq. lia. }
  split; [|split].
  - intros book_raw H.
    destruct (dict_get book_mapping book_raw) as [v|] eqn:E.
    + simpl in H. rewrite (NZ _ _ E) in H. discriminate.
    + now rewrite respelt_lookup_fails.
  - exact lookup_book_exact.
  - intros book_raw. rewrite lookup_book_exact, dict_get_key. split.
    + destruct (dict_get book_mapping book_raw) as [v|]; [eauto | discriminate].
    + intros [v E]. rewrite E. simpl. eauto.
Qed.

(* ================================================================= *)
(** * The reference parser: instances and limits *)

Lemma cross_chapter_range_units_witness :
  let m := {| m_text := U "민수기 23:27~24:9";
              m_caps := [ (5, U "9"); (4, U "24"); (3, U "27"); (2, U "23");
                          (1, U "민수기") ] |} in
  exists c1 v1 c2 v2,
    int_group m 2 = ret c1 /\ int_group m 3 = ret v1
    /\ int (U "24") = Some c2 /\ int_group m 5 = ret v2
    /\ (c1 <> c2 ->
        parse_bible_text (U "민수기 23:27~24:9") =
        (Returned [ {| book := 4; chapter := c1; start := v1; end_ := v1 |};
                    {| book := 4; chapter := c2; start := v2; end_ := v2 |} ], []))
    /\ (c1 = c2 ->
        parse_bible_text (U "민수기 23:27~24:9") =
        (Returned [ {| book := 4; chapter := c1; start := v1; end_ := v2 |} ], [])).
Proof.
  intros m.
  apply (proj1 (@cross_chapter_range_units ascii_only)
               (U "민수기 23:27~24:9") m [] 4%Z (U "24")).
  - vm_compute. reflexivity.
  - exists (U "민수기"). split; [vm_compute; reflexivity | split; [vm_compute; reflexivity | discriminate]].
  - vm_compute. reflexivity.
  - vm_compute. reflexivity.
Defined.

(** The claim C1 as it is written fails when the second chapter is
    written out and equals the first: "민수기 23:27~23:29" gives the one
    unit [{4, 23, 27, 29}]. *)
Lemma explicit_equal_chapter_one_unit :
  ~ (forall (py : Interpreter) text m rest bk w4,
        finditer pattern_range text = m :: rest ->
        resolves m bk ->
        group m 4 = Some w4 ->
        exists c1 v1 c2 v2,
          int_group m 2 = ret c1 /\ int_group m 3 = ret v1
          /\ int w4 = Some c2 /\ int_group m 5 = ret v2
          /\ fst (parse_bible_text text) =
             Returned [ {| book := bk; chapter := c1; start := v1; end_ := v1 |};
                        {| book := bk; chapter := c2; start := v2; end_ := v2 |} ]).
Proof.
  intros H.
  destruct (H ascii_only (U "민수기 23:27~23:29")
              {| m_text := U "민수기 23:27~23:29";
                 m_caps := [ (5, U "29"); (4, U "23"); (3, U "27"); (2, U "23");
                             (1, U "민수기") ] |}
              [] 4%Z (U "23"))
    as (c1 & v1 & c2 & v2 & _ & _ & _ & _ & P).
  - vm_compute. reflexivity.
  - exists (U "민수기"). split; [vm_compute; reflexivity | split; [vm_compute; reflexivity | discriminate]].
  - vm_compute. reflexivity.
  - rewrite same_chapter_written_twice in P. simpl in P. discriminate P.
Qed.

Lemma units_in_table_and_not_negative_witness :
  Forall unit_in_table [ {| book := 19; chapter := 0; start := 5; end_ := 3 |} ].
Proof.
  apply (@units_in_table_and_not_negative ascii_only (U "시편 0:5~3") _ []).
  vm_compute. reflexivity.
Defined.

(** The claim C3 as it is written fails: "시편 0:5~3" gives a unit whose
    chapter is zero and whose end verse lies before its start verse. *)
Lemma unit_outside_data_model :
  ~ (forall (py : Interpreter) text units log,
        parse_bible_text text = (Returned units, log) ->
        Forall unit_as_specified units).
Proof.
  intros H.
  specialize (H ascii_only (U "시편 0:5~3") _ _ (backwards_range (py := ascii_only))).
  inv H. unfold unit_as_specified in *. simpl in *. lia.
Qed.

Lemma resolved_range_match_excludes_single_form_witness :
  parse_from (U "민수기 23:27~24:9")
             (finditer pattern_range (U "민수기 23:27~24:9"))
             (finditer pattern_single (U "시편 1:1"))
  = parse_bible_text (U "민수기 23:27~24:9").
Proof.
  apply (@resolved_range_match_excludes_single_form ascii_only).
  exists {| m_text := U "민수기 23:27~24:9";
            m_caps := [ (5, U "9"); (4, U "24"); (3, U "27"); (2, U "23");
                        (1, U "민수기") ] |}, 4%Z.
  split.
  - vm_compute. left. reflexivity.
  - exists (U "민수기"). split; [vm_compute; reflexivity | split; [vm_compute; reflexivity | discriminate]].
Defined.

(** The claim C4 as it is written fails: in "가나다 1:1~2 시편 3:4" the
    range form matches, with a book that does not resolve, and the unit
    returned comes from the single form. *)
Lemma unresolved_range_match_admits_single_form :
  ~ (forall (py : Interpreter) text,
        finditer pattern_range text <> [] ->
        fst (parse_bible_text text)
        = fst (parse_from text (finditer pattern_range text) [])).
Proof.
  intros H.
  specialize (H ascii_only (U "가나다 1:1~2 시편 3:4")).
  rewrite unknown_range_then_single, unknown_range_without_single_tier in H.
  simpl in H. assert (X : Returned [ {| book := 19; chapter := 3; start := 4; end_ := 4 |} ]
                          = Returned (@nil verse)).
  { apply H. vm_compute. discriminate. }
  discriminate X.
Qed.



Lemma blank_is_silent_unparsable_is_logged_witness :
  parse_bible_text (U "   ") = (Returned [], [])
  /\ parse_bible_text (U "abc") = (Returned [], [WarnParseFailed (U "abc")]).
Proof.
  split.
  - apply (proj1 (@blank_is_silent_unparsable_is_logged ascii_only (U "   "))).
    vm_compute. reflexivity.
  - apply (proj2 (@blank_is_silent_unparsable_is_logged ascii_only (U "abc"))).
    + vm_compute. discriminate.
    + vm_compute. reflexivity.
    + vm_compute. reflexivity.
Defined.

Lemma single_form_one_unit_witness :
  let skipped := {| m_text := U "가나다 1:1";
                    m_caps := [ (3, U "1"); (2, U "1"); (1, U "가나다") ] |} in
  let taken := {| m_text := U "시편 3:4";
                  m_caps := [ (3, U "4"); (2, U "3"); (1, U "시편") ] |} in
  exists ch v,
    int_group taken 2 = ret ch /\ int_group taken 3 = ret v
    /\ parse_bible_text (U "가나다 1:1 시편 3:4") =
       (Returned [ {| book := 19; chapter := ch; start := v; end_ := v |} ],
        map WarnUnknownBookSingle [U "가나다"]).
Proof.
  intros skipped taken.
  apply (proj1 (@single_form_one_unit ascii_only) (U "가나다 1:1 시편 3:4")
               [skipped] taken [] [U "가나다"] 19%Z).
  - vm_compute. reflexivity.
  - vm_compute. reflexivity.
  - repeat constructor.
  - exists (U "시편"). split; [vm_compute; reflexivity | split; [vm_compute; reflexivity | discriminate]].
  - repeat constructor.
Defined.

(** The claim C9 as it is written fails: the text [long_number_single]
    has no match of the range form and one match of the single form,
    whose book resolves and whose chapter has 4301 digits; [int] raises
    ValueError on it and no unit is emitted. *)
Lemma single_form_with_long_number_raises :
  ~ (forall (py : Interpreter) text m0 bk0,
        finditer pattern_range text = [] ->
        In m0 (finditer pattern_single text) ->
        resolves m0 bk0 ->
        exists unit log, parse_bible_text text = (Returned [unit], log)).
Proof.
  intros H.
  destruct (H ascii_only long_number_single
              {| m_text := long_number_single;
                 m_caps := [ (3, U "1"); (2, long_number); (1, U "시편") ] |}
              19%Z)
    as (unit & log & P).
  - vm_compute. reflexivity.
  - vm_compute. left. reflexivity.
  - exists (U "시편"). split; [vm_compute; reflexivity | split; [vm_compute; reflexivity | discriminate]].
  - rewrite long_number_single_raises in P. discriminate P.
Qed.

Lemma respelt_lookup_never_resolves_witness :
  not_ (dict_get book_mapping (respelt (U "베드로일서"))) = true.
Proof.
  apply (proj1 respelt_lookup_never_resolves).
  vm_compute. reflexivity.
Defined.

(* ================================================================= *)
(** * Dictionaries and sorting *)

Section DictFacts.
Variable V : Type.
Implicit Types (d : list (str * V)) (k : str) (v : V).

Lemma dict_get_set d k v k' :
  dict_get (dict_set d k v) k' = if str_eqb k' k then Some v else dict_get d k'.
Proof.
  induction d as [|[a w] d IH]; simpl; [reflexivity|].
  destruct (str_eqb k a) eqn:E; simpl.
  - apply str_eqb_eq in E. subst a. destruct (str_eqb k' k); reflexivity.
  - destruct (str_eqb k' a) eqn:E'; [|exact IH].
    apply str_eqb_eq in E'. subst a.
    destruct (str_eqb k' k) eqn:E2; [|reflexivity].
    apply str_eqb_eq in E2. subst. rewrite str_eqb_refl in E. discriminate.
Qed.

Lemma dict_set_in_keys d k v x :
  In x (map fst (dict_set d k v)) <-> x = k \/ In x (map fst d).
Proof.
  induction d as [|[a w] d IH]; simpl; [intuition|].
  destruct (str_eqb k a) eqn:E; simpl.
  - apply str_eqb_eq in E. subst a. intuition.
  - rewrite IH. intuition.
Qed.

Lemma dict_set_nodup d k v :
  NoDup (map fst d) -> NoDup (map fst (dict_set d k v)).
Proof.
  induction d as [|[a w] d IH]; simpl; intros N.
  - constructor; [intros [] | constructor].
  - inv N. destruct (str_eqb k a) eqn:E; simpl.
    + now constructor.
    + constructor; [|auto]. rewrite dict_set_in_keys. intros [-> | I]; [|auto].
      rewrite str_eqb_refl in E. discriminate.
Qed.

Lemma dict_set_forall (P : str * V -> Prop) d k v :
  Forall P d -> P (k, v) -> Forall P (dict_set d k v).
Proof.
  intros F Pk. induction F as [|[a w] d Hx F IH]; simpl.
  - now repeat constructor.
  - destruct (str_eqb k a) eqn:E; constructor; auto.
    apply str_eqb_eq in E. now subst a.
Qed.

Lemma dict_get_of_in d k v :
  NoDup (map fst d) -> In (k, v) d -> dict_get d k = Some v.
Proof.
  induction d as [|[a w] d IH]; simpl; intros N I; [destruct I|].
  inv N. destruct I as [[= -> ->] | I].
  - now rewrite str_eqb_refl.
  - destruct (str_eqb k a) eqn:E; [|auto].
    apply str_eqb_eq in E. subst a. exfalso.
    match goal with H : ~ In _ _ |- _ => apply H end.
    change k with (fst (k, v)). now apply in_map.
Qed.

End DictFacts.

Section SortFacts.
Variable V : Type.

Lemma insert_sorted_perm (x : Z * V) l : Permutation (x :: l) (insert_sorted x l).
Proof.
  induction l as [|y l IH]; simpl; [reflexivity|].
  destruct (fst x <=? fst y)%Z; [reflexivity|].
  rewrite perm_swap. now constructor.
Qed.

Lemma insert_sorted_sorted (x : Z * V) l :
  StronglySorted key_le l -> StronglySorted key_le (insert_sorted x l).
Proof.
  induction 1 as [|y l S IH F]; simpl.
  - repeat constructor.
  - destruct (fst x <=? fst y)%Z eqn:E.
    + apply Z.leb_le in E. constructor; [now constructor|].
      constructor; [exact E|].
      eapply Forall_impl; [|exact F]. unfold key_le. intros; lia.
    + apply Z.leb_gt in E. constructor; [exact IH|].
      eapply Permutation_Forall; [apply insert_sorted_perm|].
      constructor; [unfold key_le; lia | exact F].
Qed.

Lemma sort_keyed_perm (l : list (Z * V)) : Permutation l (sort_keyed l).
Proof.
  induction l as [|x l IH]; simpl; [reflexivity|].
  rewrite <- insert_sorted_perm. now constructor.
Qed.

Lemma sort_keyed_sorted (l : list (Z * V)) : StronglySorted key_le (sort_keyed l).
Proof.
  induction l as [|x l IH]; simpl; [constructor|].
  now apply insert_sorted_sorted.
Qed.

Lemma sorted_keys (l : list (Z * V)) :
  StronglySorted key_le l -> StronglySorted Z.le (map fst l).
Proof.
  induction 1 as [|y l S IH F]; simpl; constructor; auto.
  rewrite Forall_forall in *. intros z Hz.
  apply in_map_iff in Hz as (p & <- & Hp). now apply F.
Qed.

End SortFacts.

(* ================================================================= *)
(** * The effects of a computation *)

Section MonadFacts.

Lemma bind_returned A B (m : M A) (f : A -> M B) b w :
  bind m f = (Returned b, w) ->
  exists a w1 w2, m = (Returned a, w1) /\ f a = (Returned b, w2) /\ w = w1 ++ w2.
Proof.
  unfold bind. destruct m as [[a|e] w1]; [|discriminate].
  destruct (f a) as [r w2] eqn:E. intros [= -> <-]. exists a, w1, w2. auto.
Qed.

Lemma mapM_returned X Y (f : X -> M Y) l ys w :
  mapM f l = (Returned ys, w) ->
  Forall2 (fun x y => exists w', f x = (Returned y, w')) l ys.
Proof.
  revert ys w. induction l as [|x l IH]; simpl; intros ys w H.
  - inv H. constructor.
  - apply bind_returned in H as (y & w1 & w2 & Hx & H & _).
    apply bind_returned in H as (ys' & w3 & w4 & Hl & H & _).
    inv H. constructor; eauto.
Qed.

End MonadFacts.

(* ================================================================= *)
(** * The two passes of [get_qt_schedule] *)

Section PassFacts.

(** The table pass writes records without week and title under their own
    day, and keeps the keys distinct. *)
Lemma table_cell_forall (P : str * entry -> Prop) sd cell :
  (forall dy b, P (dy, {| day := dy; bible := b; week := None; title := None |})) ->
  Forall P sd -> Forall P (table_cell sd cell).
Proof.
  intros HP F. unfold table_cell.
  destruct (find cell _ _); [|exact F].
  destruct (find cell _ _); [|exact F].
  destruct (strip (text n)); [exact F|].
  now apply dict_set_forall.
Qed.

Lemma table_cell_nodup sd cell :
  NoDup (map fst sd) -> NoDup (map fst (table_cell sd cell)).
Proof.
  intros N. unfold table_cell.
  destruct (find cell _ _); [|exact N].
  destruct (find cell _ _); [|exact N].
  destruct (strip (text n)); [exact N|].
  now apply dict_set_nodup.
Qed.

Lemma table_pass_forall (P : str * entry -> Prop) soup sd :
  (forall dy b, P (dy, {| day := dy; bible := b; week := None; title := None |})) ->
  Forall P sd -> Forall P (table_pass soup sd).
Proof.
  intros HP. unfold table_pass. destruct (find soup _ _); [|auto].
  generalize (flat_map (fun row => find_all row (U "td") None)
                       (tl (find_all n (U "tr") None))).
  intros cells. revert sd. induction cells as [|c cells IH]; simpl; auto.
  intros sd F. apply IH. now apply table_cell_forall.
Qed.

Lemma table_pass_nodup soup sd :
  NoDup (map fst sd) -> NoDup (map fst (table_pass soup sd)).
Proof.
  unfold table_pass. destruct (find soup _ _); [|auto].
  generalize (flat_map (fun row => find_all row (U "td") None)
                       (tl (find_all n (U "tr") None))).
  intros cells. revert sd. induction cells as [|c cells IH]; simpl; auto.
  intros sd N. apply IH. now apply table_cell_nodup.
Qed.

(** A row of the list view is passed over, or writes one record with week
    and title under its own day, or raises; which of the three does not
    depend on the dictionary. *)
Lemma list_row_cases tr :
  (forall sd, list_row sd tr = ret sd)
  \/ (exists dy b wk ti,
        forall sd, list_row sd tr =
                   ret (dict_set sd dy {| day := dy; bible := b;
                                          week := Some wk; title := Some ti |}))
  \/ (exists e, forall sd, list_row sd tr = raise e).
Proof.
  unfold list_row.
  destruct (find tr (U "td") (Some (class_is (U "time")))) as [t|]; [|now left].
  destruct (find tr (U "td") (Some (class_is (U "name")))) as [n|]; [|now left].
  destruct (find tr (U "td") (Some (class_is (U "title")))) as [ti|]; [|now left].
  destruct (find tr (U "td") (Some (class_is (U "views")))) as [v|]; [|now left].
  right. unfold span_text.
  destruct (find t (U "span") None) as [s1|];
    [|right; exists AttributeError; reflexivity].
  destruct (find n (U "span") None) as [s2|];
    [|right; exists AttributeError; reflexivity].
  destruct (find ti (U "span") None) as [s3|];
    [|right; exists AttributeError; reflexivity].
  left. do 4 eexists. intros sd. reflexivity.
Qed.

Lemma list_rows_forall (P : str * entry -> Prop) rows :
  (forall dy b wk ti,
      P (dy, {| day := dy; bible := b; week := Some wk; title := Some ti |})) ->
  forall sd merged w,
    foldM list_row rows sd = (Returned merged, w) ->
    Forall P sd -> Forall P merged.
Proof.
  intros HP. induction rows as [|tr rows IH]; simpl; intros sd merged w H F.
  - now inv H.
  - destruct (list_row_cases tr) as [E | [(dy & b & wk & ti & E) | [e E]]];
      rewrite E in H.
    + rewrite bind_ret in H. eauto.
    + rewrite bind_ret in H. eapply IH; [exact H|]. now apply dict_set_forall.
    + discriminate.
Qed.

Lemma list_rows_nodup rows :
  forall sd merged w,
    foldM list_row rows sd = (Returned merged, w) ->
    NoDup (map fst sd) -> NoDup (map fst merged).
Proof.
  induction rows as [|tr rows IH]; simpl; intros sd merged w H N.
  - now inv H.
  - destruct (list_row_cases tr) as [E | [(dy & b & wk & ti & E) | [e E]]];
      rewrite E in H.
    + rewrite bind_ret in H. eauto.
    + rewrite bind_ret in H. eapply IH; [exact H|]. now apply dict_set_nodup.
    + discriminate.
Qed.

(** The list pass run on a dictionary is the list pass run on the empty
    dictionary laid over it. *)
Lemma list_rows_merge base rows :
  forall sd s0 merged w ld w0,
    foldM list_row rows sd = (Returned merged, w) ->
    foldM list_row rows s0 = (Returned ld, w0) ->
    (forall k, dict_get sd k =
               match dict_get s0 k with Some e => Some e | None => dict_get base k end) ->
    forall k, dict_get merged k =
              match dict_get ld k with Some e => Some e | None => dict_get base k end.
Proof.
  induction rows as [|tr rows IH]; simpl; intros sd s0 merged w ld w0 H H0 I.
  - inv H. inv H0. exact I.
  - destruct (list_row_cases tr) as [E | [(dy & b & wk & ti & E) | [e E]]];
      rewrite E in H, H0.
    + rewrite bind_ret in H, H0. eauto.
    + rewrite bind_ret in H, H0. eapply IH; [exact H | exact H0 |].
      intros k. rewrite !dict_get_set. destruct (str_eqb k dy); auto.
    + discriminate.
Qed.

Lemma list_pass_forall (P : str * entry -> Prop) soup sd merged w :
  (forall dy b wk ti,
      P (dy, {| day := dy; bible := b; week := Some wk; title := Some ti |})) ->
  list_pass soup sd = (Returned merged, w) ->
  Forall P sd -> Forall P merged.
Proof.
  intros HP. unfold list_pass. destruct (find soup _ _).
  - now apply list_rows_forall.
  - intros H. now inv H.
Qed.

Lemma list_pass_nodup soup sd merged w :
  list_pass soup sd = (Returned merged, w) ->
  NoDup (map fst sd) -> NoDup (map fst merged).
Proof.
  unfold list_pass. destruct (find soup _ _).
  - apply list_rows_nodup.
  - intros H. now inv H.
Qed.

Lemma list_pass_merge soup sd merged w ld w0 :
  list_pass soup sd = (Returned merged, w) ->
  list_pass soup [] = (Returned ld, w0) ->
  forall k, dict_get merged k =
            match dict_get ld k with Some e => Some e | None => dict_get sd k end.
Proof.
  unfold list_pass. destruct (find soup _ _).
  - intros H H0. eapply list_rows_merge; eauto.
  - intros H H0. inv H. inv H0. reflexivity.
Qed.

End PassFacts.

Section ScheduleFacts.
Context {py : Interpreter}.

Lemma day_keys_returned vs keyed w :
  mapM day_key vs = (Returned keyed, w) ->
  map snd keyed = vs
  /\ Forall (fun p => int (day (snd p)) = Some (fst p)) keyed.
Proof.
  intros H. apply mapM_returned in H.
  induction H as [|e p vs keyed [w' Hp] _ [IH1 IH2]]; simpl; [now split|].
  unfold day_key in Hp. destruct (int (day e)) as [z|] eqn:E; [|discriminate].
  inv Hp. simpl. split; [now f_equal | now constructor].
Qed.

(** The parts of a run of [schedule_of] that returns. *)
Lemma schedule_of_returned soup l log :
  schedule_of soup = (Returned l, log) ->
  exists merged w sorted,
    list_pass soup (table_pass soup []) = (Returned merged, w)
    /\ Permutation (map snd sorted) (values merged)
    /\ Forall (fun p => int (day (snd p)) = Some (fst p)) sorted
    /\ StronglySorted (@key_le entry) sorted
    /\ l = map snd sorted.
Proof.
  unfold schedule_of. intros H.
  apply bind_returned in H as (merged & w1 & w2 & Hl & H & _).
  apply bind_returned in H as (keyed & w3 & w4 & Hk & H & _).
  inv H. apply day_keys_returned in Hk as [K1 K2].
  exists merged, w1, (sort_keyed keyed). split; [exact Hl|].
  split; [|split; [|split]].
  - rewrite <- K1. apply Permutation_map. symmetry. apply sort_keyed_perm.
  - eapply Permutation_Forall; [apply sort_keyed_perm | exact K2].
  - apply sort_keyed_sorted.
  - reflexivity.
Qed.

(** The dictionary handed to [sorted]: distinct keys, each record under
    its own day. *)
Lemma merged_well_formed soup merged w :
  list_pass soup (table_pass soup []) = (Returned merged, w) ->
  NoDup (map fst merged)
  /\ Forall (fun kv : str * entry => day (snd kv) = fst kv) merged.
Proof.
  intros H. split.
  - eapply list_pass_nodup; [exact H|]. apply table_pass_nodup. constructor.
  - eapply list_pass_forall; [| exact H |]; [reflexivity|].
    apply table_pass_forall; [reflexivity | constructor].
Qed.

Lemma get_qt_schedule_returned {world : World} year month l log :
  get_qt_schedule year month = (Returned (Some l), log) ->
  exists page soup, requests_get year month = Some page
                    /\ BeautifulSoup page = Returned soup
                    /\ schedule_of soup = (Returned l, log).
Proof.
  unfold get_qt_schedule. destruct (requests_get year month) as [page|].
  - destruct (BeautifulSoup page) as [soup|e] eqn:B.
    + change (lift (Returned soup)) with (ret soup). rewrite bind_ret. intros H.
      apply bind_returned in H as (l' & w1 & w2 & Hs & H & ->).
      inv H. rewrite app_nil_r. exists page, soup. auto.
    + change (lift (@Raised node e)) with (@raise node e).
      rewrite bind_raise. intros H. inv H.
  - intros H. inv H.
Qed.

Lemma sorted_days (sorted : list (Z * entry)) :
  Forall (fun p => int (day (snd p)) = Some (fst p)) sorted ->
  map (fun e => int (day e)) (map snd sorted) = map Some (map fst sorted).
Proof.
  induction 1 as [|p l Hp _ IH]; simpl; [reflexivity|]. now rewrite Hp, IH.
Qed.

Lemma sorted_strictly (sorted : list (Z * entry)) :
  Forall (fun p => int (day (snd p)) = Some (fst p)) sorted ->
  StronglySorted (@key_le entry) sorted ->
  NoDup (map day (map snd sorted)) ->
  (forall e e', In e (map snd sorted) -> In e' (map snd sorted) ->
                int (day e) = int (day e') -> day e = day e') ->
  StronglySorted Z.lt (map fst sorted).
Proof.
  intros F S. induction S as [|p l S IH L]; simpl; intros N Inj; [constructor|].
  inversion F as [|? ? Hp Fl]; subst.
  inversion N as [|? ? Np Nl]; subst.
  constructor.
  - apply IH; auto.
  - apply Forall_forall. intros z Hz.
    apply in_map_iff in Hz as (q & <- & Hq).
    rewrite Forall_forall in L, Fl.
    assert (Lq := L q Hq). unfold key_le in Lq.
    destruct (Z.eq_dec (fst p) (fst q)) as [E|]; [|lia]. exfalso.
    apply Np.
    assert (D : day (snd p) = day (snd q)).
    { apply Inj; [now left | right; now apply in_map |].
      rewrite Hp, (Fl q Hq). congruence. }
    rewrite D. apply in_map. now apply in_map.
Qed.

End ScheduleFacts.

(* ================================================================= *)
(** * The calendar fetcher: the properties of the specification *)

Section CalendarProperties.
Context {py : Interpreter} {world : World}.

(** C6, as amended.  For every fetched document in which a day text
    appears in both the table pass and the list pass, the schedule holds
    exactly one record for that day text and it is the record of the list
    pass, with its week label, its title and its reference text: the
    record of the table pass is not in the schedule.  (A day is the text
    the passes read, the key of the dictionary; a day whose number the
    two views write differently keeps both records.) *)
Theorem list_pass_record_supersedes
        year month page soup l log d e_table ld w e_list :
  requests_get year month = Some page ->
  BeautifulSoup page = Returned soup ->
  get_qt_schedule year month = (Returned (Some l), log) ->
  dict_get (table_pass soup []) d = Some e_table ->
  list_pass soup [] = (Returned ld, w) ->
  dict_get ld d = Some e_list ->
  In e_list l
  /\ (forall e, In e l -> day e = d -> e = e_list)
  /\ ~ In e_table l
  /\ day e_list = d /\ week e_list <> None /\ title e_list <> None.
Proof.
  intros Hreq Hsoup Hs Ht Hl He.
  apply get_qt_schedule_returned in Hs as (page' & soup' & Hreq' & Hsoup' & Hs).
  rewrite Hreq in Hreq'. injection Hreq' as Ep. subst page'.
  rewrite Hsoup in Hsoup'. injection Hsoup' as Es. subst soup'.
  apply schedule_of_returned in Hs as (merged & w1 & sorted & Hm & P & _ & _ & ->).
  destruct (merged_well_formed _ _ _ Hm) as [N K].
  assert (G : dict_get merged d = Some e_list).
  { rewrite (list_pass_merge _ _ _ _ _ _ Hm Hl d). now rewrite He. }
  assert (Uq : forall e, In e (map snd sorted) -> day e = d -> e = e_list).
  { intros e I D. apply (Permutation_in _ P) in I. unfold values in I.
    apply in_map_iff in I as ([k e'] & E & I). simpl in E. subst e'.
    rewrite Forall_forall in K. pose proof (K _ I) as Kk. simpl in Kk.
    rewrite D in Kk. subst k.
    apply (dict_get_of_in _ _ _ _ N) in I. congruence. }
  assert (Le : Forall (fun kv : str * entry =>
                         day (snd kv) = fst kv /\ week (snd kv) <> None
                         /\ title (snd kv) <> None) ld).
  { eapply list_pass_forall; [| exact Hl | constructor].
    intros; simpl; repeat split; discriminate. }
  rewrite Forall_forall in Le.
  destruct (Le _ (dict_get_in _ _ _ _ He)) as (D1 & W1 & T1). simpl in *.
  assert (Lt : Forall (fun kv : str * entry =>
                         day (snd kv) = fst kv /\ week (snd kv) = None)
                      (table_pass soup [])).
  { apply table_pass_forall; [intros; now split | constructor]. }
  rewrite Forall_forall in Lt.
  destruct (Lt _ (dict_get_in _ _ _ _ Ht)) as (D0 & W0). simpl in *.
  split; [|split; [exact Uq | split; [|auto]]].
  - apply (Permutation_in _ (Permutation_sym P)). unfold values.
    apply in_map_iff. exists (d, e_list). split; [reflexivity|].
    now apply dict_get_in.
  - intros I. apply Uq in I; [|exact D0]. subst. congruence.
Qed.

(** C7, as amended.  For every month document retrieved, the schedule
    returned holds one record for each day text (no two records have the
    same day text) and is in ascending order of the numbers the day texts
    denote; the order is strict when different day texts denote different
    numbers. *)
Theorem schedule_ascending_one_record_per_day_text year month l log :
  get_qt_schedule year month = (Returned (Some l), log) ->
  NoDup (map day l)
  /\ ascending Z.le l
  /\ ((forall e e', In e l -> In e' l ->
                    int (day e) = int (day e') -> day e = day e') ->
      ascending Z.lt l).
Proof.
  intros Hs.
  apply get_qt_schedule_returned in Hs as (page & soup & _ & _ & Hs).
  apply schedule_of_returned in Hs as (merged & w1 & sorted & Hm & P & F & S & ->).
  destruct (merged_well_formed _ _ _ Hm) as [N K].
  assert (ND : NoDup (map day (map snd sorted))).
  { eapply Permutation_NoDup;
      [apply Permutation_map, Permutation_sym, P|].
    unfold values. rewrite map_map.
    erewrite map_ext_in; [exact N|].
    intros kv I. rewrite Forall_forall in K. now apply K. }
  split; [exact ND | split].
  - exists (map fst sorted). split; [now apply sorted_days | now apply sorted_keys].
  - intros Inj. exists (map fst sorted).
    split; [now apply sorted_days | now apply sorted_strictly].
Qed.

End CalendarProperties.

(* ================================================================= *)
(** * The date resolver: the properties of the specification *)

Section ResolverProperties.
Context {py : Interpreter} {world : World}.

(** C2, as amended.  For every timestamp and every time-zone name that is
    not recognized, [timestamp_to_qt_data_ms] prints a line and returns
    the empty list (the unknown-zone line, or the unexpected-error line
    when the timestamp itself could not be converted); the distinct error
    is reported by [get_qt_bible_data], which tests the name before it
    calls the resolver and answers 400 "Invalid timezone" to a request
    with a well-formed timestamp. *)
Theorem unknown_timezone_empty_list_endpoint_error :
  (forall timestamp_ms timezone_str,
      pytz_timezone timezone_str = None ->
      timestamp_to_qt_data_ms timestamp_ms timezone_str
      = (Returned [],
         [ match fromtimestamp_utc timestamp_ms with
           | Returned _ | Raised UnknownTimeZoneError =>
               ErrUnknownTimezone timezone_str
           | Raised e => ErrUnexpected e
           end ]))
  /\ (forall ts_str timestamp_ms timezone_str,
      ts_str <> [] ->
      int ts_str = Some timestamp_ms ->
      pytz_timezone timezone_str = None ->
      get_qt_bible_data (Some ts_str) (Some timezone_str)
      = (Returned (ErrorInvalidTimezone timezone_str, 400%Z), [])).
Proof.
  split.
  - intros ts tz H. unfold timestamp_to_qt_data_ms, resolve_date, lift.
    rewrite H. destruct (fromtimestamp_utc ts) as [dt|e]; simpl.
    + reflexivity.
    + destruct e; reflexivity.
  - intros ts_str ts tz NE I H. unfold get_qt_bible_data.
    destruct ts_str as [|c t]; [congruence|]. now rewrite I, H.
Qed.

End ResolverProperties.

(* ================================================================= *)
(** * The fetcher and the resolver: instances and limits *)

Lemma list_pass_record_supersedes_witness :
  let e_table := {| day := U "2"; bible := U "시편 2:1"; week := None; title := None |} in
  let e_list := {| day := U "2"; bible := U "시편 2:1~12";
                   week := Some (U "Fri"); title := Some (U "The King") |} in
  let l := [ {| day := U "1"; bible := U "시편 1:1"; week := None; title := None |};
             {| day := U "01"; bible := U "시편 1:1~6";
                week := Some (U "Thu"); title := Some (U "Blessed") |};
             e_list ] in
  In e_list l
  /\ (forall e, In e l -> day e = U "2" -> e = e_list)
  /\ ~ In e_table l
  /\ day e_list = U "2" /\ week e_list <> None /\ title e_list <> None.
Proof.
  intros e_table e_list l.
  apply (@list_pass_record_supersedes ascii_only example_world
           2025%Z 5%Z padded_days_soup padded_days_soup l [] (U "2") e_table
           [ (U "01", {| day := U "01"; bible := U "시편 1:1~6";
                         week := Some (U "Thu"); title := Some (U "Blessed") |});
             (U "2", e_list) ] []).
  - reflexivity.
  - reflexivity.
  - vm_compute. reflexivity.
  - vm_compute. reflexivity.
  - vm_compute. reflexivity.
  - vm_compute. reflexivity.
Defined.

(** The claim C6 as it is written fails when a day is the number: in
    [padded_days_soup] the first day appears in the table pass as "1" and
    in the list pass as "01", and the record of the table pass stays in
    the schedule, before the record of the list pass. *)
Lemma padded_day_keeps_table_record :
  ~ (forall (py : Interpreter) (world : World)
            year month page soup l log d_table d_list n e_table ld w e_list,
        requests_get year month = Some page ->
        BeautifulSoup page = Returned soup ->
        get_qt_schedule year month = (Returned (Some l), log) ->
        dict_get (table_pass soup []) d_table = Some e_table ->
        list_pass soup [] = (Returned ld, w) ->
        dict_get ld d_list = Some e_list ->
        int d_table = Some n -> int d_list = Some n ->
        ~ In e_table l).
Proof.
  intros H.
  apply (H ascii_only example_world 2025%Z 5%Z padded_days_soup padded_days_soup
           [ {| day := U "1"; bible := U "시편 1:1"; week := None; title := None |};
             {| day := U "01"; bible := U "시편 1:1~6";
                week := Some (U "Thu"); title := Some (U "Blessed") |};
             {| day := U "2"; bible := U "시편 2:1~12";
                week := Some (U "Fri"); title := Some (U "The King") |} ] []
           (U "1") (U "01") 1%Z
           {| day := U "1"; bible := U "시편 1:1"; week := None; title := None |}
           [ (U "01", {| day := U "01"; bible := U "시편 1:1~6";
                         week := Some (U "Thu"); title := Some (U "Blessed") |});
             (U "2", {| day := U "2"; bible := U "시편 2:1~12";
                        week := Some (U "Fri"); title := Some (U "The King") |}) ] []
           {| day := U "01"; bible := U "시편 1:1~6";
              week := Some (U "Thu"); title := Some (U "Blessed") |}).
  - reflexivity.
  - reflexivity.
  - vm_compute. reflexivity.
  - vm_compute. reflexivity.
  - vm_compute. reflexivity.
  - vm_compute. reflexivity.
  - vm_compute. reflexivity.
  - vm_compute. reflexivity.
  - left. reflexivity.
Qed.

Lemma schedule_ascending_one_record_per_day_text_witness :
  let l := [ {| day := U "1"; bible := U "시편 1:1"; week := None; title := None |};
             {| day := U "01"; bible := U "시편 1:1~6";
                week := Some (U "Thu"); title := Some (U "Blessed") |};
             {| day := U "2"; bible := U "시편 2:1~12";
                week := Some (U "Fri"); title := Some (U "The King") |} ] in
  NoDup (map day l)
  /\ ascending (py := ascii_only) Z.le l
  /\ ((forall e e', In e l -> In e' l ->
                    int (py := ascii_only) (day e) = int (day e') -> day e = day e') ->
      ascending (py := ascii_only) Z.lt l).
Proof.
  intros l.
  apply (@schedule_ascending_one_record_per_day_text ascii_only example_world
           2025%Z 5%Z l []).
  vm_compute. reflexivity.
Defined.

(** The claim C7 as it is written fails: when the table view shows a day
    as "1" and the list view shows it as "01", the schedule holds two
    records whose day is the number 1. *)
Lemma padded_day_repeats_a_number :
  ~ (forall (py : Interpreter) (world : World) year month l log,
        get_qt_schedule year month = (Returned (Some l), log) ->
        ascending Z.lt l).
Proof.
  intros H.
  destruct (H ascii_only example_world 2025%Z 5%Z
              [ {| day := U "1"; bible := U "시편 1:1"; week := None; title := None |};
                {| day := U "01"; bible := U "시편 1:1~6";
                   week := Some (U "Thu"); title := Some (U "Blessed") |};
                {| day := U "2"; bible := U "시편 2:1~12";
                   week := Some (U "Fri"); title := Some (U "The King") |} ] [])
    as (ks & E & S).
  - vm_compute. reflexivity.
  - vm_compute in E.
    destruct ks as [|k1 [|k2 ks]]; try discriminate E.
    injection E as E1 E2 _. subst k1 k2.
    inv S. match goal with F : Forall _ (_ :: _) |- _ => inv F end. lia.
Qed.

Lemma unknown_timezone_empty_list_endpoint_error_witness :
  timestamp_to_qt_data_ms (py := ascii_only) (world := example_world)
                          1747551764480%Z (U "Mars/Phobos")
  = (Returned [], [ErrUnknownTimezone (U "Mars/Phobos")])
  /\ get_qt_bible_data (py := ascii_only) (world := example_world)
                       (Some (U "1747551764480")) (Some (U "Mars/Phobos"))
     = (Returned (ErrorInvalidTimezone (U "Mars/Phobos"), 400%Z), []).
Proof.
  split.
  - apply (proj1 (@unknown_timezone_empty_list_endpoint_error ascii_only example_world)
                 1747551764480%Z (U "Mars/Phobos")).
    vm_compute. reflexivity.
  - apply (proj2 (@unknown_timezone_empty_list_endpoint_error ascii_only example_world)
                 (U "1747551764480") 1747551764480%Z (U "Mars/Phobos")).
    + vm_compute. discriminate.
    + vm_compute. reflexivity.
    + vm_compute. reflexivity.
Defined.

(** The claim C2 as it is written fails: for the unknown zone
    "Mars/Phobos" the resolver raises nothing and returns the empty
    list. *)
Lemma unknown_timezone_not_propagated :
  ~ (forall (py : Interpreter) (world : World) timestamp_ms timezone_str,
        pytz_timezone timezone_str = None ->
        fst (timestamp_to_qt_data_ms timestamp_ms timezone_str)
        = Raised UnknownTimeZoneError).
Proof.
  intros H.
  specialize (H ascii_only example_world 1747551764480%Z (U "Mars/Phobos")).
  vm_compute in H. specialize (H eq_refl). discriminate H.
Qed.

(* ================================================================= *)
(** * More on the reference parser *)

Section ParserShape.
Context {py : Interpreter}.

Lemma range_units_shape bk c1 v1 c2 v2 :
  (exists u, range_units bk c1 v1 c2 v2 = [u])
  \/ (exists u1 u2,
        range_units bk c1 v1 c2 v2 = [u1; u2]
        /\ book u1 = book u2 /\ chapter u1 <> chapter u2
        /\ start u1 = end_ u1 /\ start u2 = end_ u2).
Proof.
  unfold range_units. destruct (c1 =? c2)%Z eqn:E; simpl.
  - left. eauto.
  - right. apply Z.eqb_neq in E. do 2 eexists. split; [reflexivity|].
    simpl. auto.
Qed.

Lemma range_units_not_nil bk c1 v1 c2 v2 : range_units bk c1 v1 c2 v2 <> [].
Proof. unfold range_units. destruct (negb _); discriminate. Qed.

Lemma no_failure_line_among_range_warnings text names :
  ~ In (WarnParseFailed text) (map WarnUnknownBookRange names).
Proof. intros I. apply in_map_iff in I as (n & E & _). discriminate. Qed.

Lemma no_failure_line_among_single_warnings text names :
  ~ In (WarnParseFailed text) (map WarnUnknownBookSingle names).
Proof. intros I. apply in_map_iff in I as (n & E & _). discriminate. Qed.

(** The units returned do not depend on the text handed over for the last
    warning. *)
Lemma parse_from_units_text t t' rm sm :
  fst (parse_from t rm sm) = fst (parse_from t' rm sm).
Proof.
  unfold parse_from.
  destruct (for_ rm (range_body [])) as [[[out|]|e] w]; simpl; try reflexivity.
  destruct (for_ sm (single_body [])) as [[[out|]|e] w']; simpl; try reflexivity.
  destruct (strip t), (strip t'); reflexivity.
Qed.

(** A character that is no Hangul syllable begins no match. *)
Lemma finditer_skips_non_hangul r pre s :
  forallb (fun c => negb (is_hangul c)) pre = true ->
  finditer (book_name >> r) (pre ++ s) = finditer (book_name >> r) s.
Proof.
  induction pre as [|c pre IH]; simpl; intros F; [reflexivity|].
  apply andb_true_iff in F as [Fc Fp]. apply negb_true_iff in Fc.
  unfold finditer in *. cbn [finditer_from].
  unfold match_here. rewrite book_name_needs_hangul by exact Fc. auto.
Qed.

(** X1.  Whenever [parse_bible_text] returns, it returns no unit, one
    unit, or two units; two units have the same book, different chapters,
    and each its start verse as end verse. *)
Theorem parse_returns_at_most_two_units text units log :
  parse_bible_text text = (Returned units, log) ->
  units = []
  \/ (exists u, units = [u])
  \/ (exists u1 u2,
        units = [u1; u2]
        /\ book u1 = book u2 /\ chapter u1 <> chapter u2
        /\ start u1 = end_ u1 /\ start u2 = end_ u2).
Proof.
  intros H.
  destruct (parse_cases text)
    as [(pre & m & post & names & bk & c1 & v1 & c2 & v2 & _ & _ & _ & _ & E)
       | [(names & pre & m & post & names' & bk & ch & v & _ & _ & _ & _ & _ & E)
         | [(names & names' & _ & _ & E) | [log' E]]]];
    rewrite E in H; inv H.
  - right. apply range_units_shape.
  - right. left. eauto.
  - now left.
Qed.

(** X2.  When the first match of the range form names a book that
    resolves, writes no second chapter and holds no number beyond the
    limit of [int], the parser returns the one unit [{book, chapter,
    startVerse, endVerse}] and prints nothing. *)
Theorem same_chapter_range_one_unit text m rest bk :
  finditer pattern_range text = m :: rest ->
  resolves m bk ->
  group m 4 = None ->
  range_fits m = true ->
  exists ch v1 v2,
    int_group m 2 = ret ch /\ int_group m 3 = ret v1 /\ int_group m 5 = ret v2
    /\ parse_bible_text text =
       (Returned [ {| book := bk; chapter := ch; start := v1; end_ := v2 |} ], []).
Proof.
  intros E R G L.
  destruct (range_hit text [] m rest [] bk E (Forall2_nil _) (Forall_nil _) R L)
    as (c1 & v1 & c2 & v2 & I2 & I3 & I5 & I4 & _ & _ & H).
  rewrite G in I4. subst c2. exists c1, v1, v2.
  repeat (split; [solve [auto] |]).
  specialize (H rest (finditer pattern_single text)). simpl in H.
  unfold parse_bible_text. rewrite E, H. unfold range_units.
  now rewrite Z.eqb_refl.
Qed.

(** X3.  Whenever the parser returns, the list returned is empty exactly
    when no match of either form names a book that resolves. *)
Theorem empty_result_iff_no_book_resolves text units log :
  parse_bible_text text = (Returned units, log) ->
  (units = []
   <-> (forall m bk,
           In m (finditer pattern_range text) \/ In m (finditer pattern_single text) ->
           ~ resolves m bk)).
Proof.
  intros P.
  destruct (parse_cases text)
    as [(pre & m & post & names & bk & c1 & v1 & c2 & v2 & Er & _ & R & _ & E)
       | [(names & pre & m & post & names' & bk & ch & v & _ & Es & _ & R & _ & E)
         | [(names & names' & Fr & Fs & E) | [log' E]]]];
    rewrite E in P; inv P; split.
  - intros H. now destruct (range_units_not_nil bk c1 v1 c2 v2).
  - intros H. exfalso. apply (H m bk); [|exact R].
    left. rewrite Er. apply in_elt.
  - intros H. discriminate H.
  - intros H. exfalso. apply (H m bk); [|exact R].
    right. rewrite Es. apply in_elt.
  - intros _ m bk [I|I] R.
    + exact (unresolved_all_in _ _ _ _ Fr I R).
    + exact (unresolved_all_in _ _ _ _ Fs I R).
  - reflexivity.
Qed.

(** X4.  The line "Failed to parse" is printed exactly when the result is
    empty and the input is not blank; so an input whose matches all name
    unknown books is reported as a failure too. *)
Theorem failure_line_iff_empty_and_not_blank text units log :
  parse_bible_text text = (Returned units, log) ->
  (In (WarnParseFailed text) log <-> units = [] /\ strip text <> []).
Proof.
  intros H.
  destruct (parse_cases text)
    as [(pre & m & post & names & bk & c1 & v1 & c2 & v2 & _ & _ & _ & _ & E)
       | [(names & pre & m & post & names' & bk & ch & v & _ & _ & _ & _ & _ & E)
         | [(names & names' & _ & _ & E) | [log' E]]]];
    rewrite E in H; inv H; split.
  - intros I. now apply no_failure_line_among_range_warnings in I.
  - intros [N _]. now destruct (range_units_not_nil bk c1 v1 c2 v2).
  - intros I. apply in_app_or in I as [I|I].
    + now apply no_failure_line_among_range_warnings in I.
    + now apply no_failure_line_among_single_warnings in I.
  - intros [N _]. discriminate N.
  - intros I. split; [reflexivity|].
    apply in_app_or in I as [I|I];
      [now apply no_failure_line_among_range_warnings in I|].
    apply in_app_or in I as [I|I];
      [now apply no_failure_line_among_single_warnings in I|].
    destruct (strip text); [destruct I | discriminate].
  - intros [_ N]. apply in_or_app. right. apply in_or_app. right.
    destruct (strip text); [congruence | now left].
Qed.

(** X5.  Characters put before the input that are no Hangul syllables
    (a label in Latin letters, digits, punctuation, spaces) change none
    of the units returned. *)
Theorem leading_non_hangul_ignored pre text :
  forallb (fun c => negb (is_hangul c)) pre = true ->
  fst (parse_bible_text (pre ++ text)) = fst (parse_bible_text text).
Proof.
  intros F. unfold parse_bible_text, pattern_range, pattern_single.
  rewrite !finditer_skips_non_hangul by exact F.
  apply parse_from_units_text.
Qed.

End ParserShape.

Lemma parse_returns_at_most_two_units_witness :
  let units := [ {| book := 4; chapter := 23; start := 27; end_ := 27 |};
                 {| book := 4; chapter := 24; start := 9; end_ := 9 |} ] in
  units = []
  \/ (exists u, units = [u])
  \/ (exists u1 u2,
        units = [u1; u2]
        /\ book u1 = book u2 /\ chapter u1 <> chapter u2
        /\ start u1 = end_ u1 /\ start u2 = end_ u2).
Proof.
  intros units.
  apply (@parse_returns_at_most_two_units ascii_only (U "민수기 23:27~24:9") units []).
  vm_compute. reflexivity.
Defined.

Lemma empty_result_iff_no_book_resolves_witness :
  @nil verse = []
  <-> (forall m bk,
          In m (finditer (py := ascii_only) pattern_range (U "요한1서 1:1"))
          \/ In m (finditer (py := ascii_only) pattern_single (U "요한1서 1:1")) ->
          ~ resolves m bk).
Proof.
  apply (@empty_result_iff_no_book_resolves ascii_only (U "요한1서 1:1") []
           [ WarnUnknownBookSingle (U "요한1서"); WarnParseFailed (U "요한1서 1:1") ]).
  vm_compute. reflexivity.
Defined.

Lemma same_chapter_range_one_unit_witness :
  exists ch v1 v2,
    int_group {| m_text := U "요한일서 1:5-10";
                 m_caps := [ (5, U "10"); (3, U "5"); (2, U "1"); (1, U "요한일서") ] |} 2
    = ret ch
    /\ int_group {| m_text := U "요한일서 1:5-10";
                    m_caps := [ (5, U "10"); (3, U "5"); (2, U "1"); (1, U "요한일서") ] |} 3
       = ret v1
    /\ int_group {| m_text := U "요한일서 1:5-10";
                    m_caps := [ (5, U "10"); (3, U "5"); (2, U "1"); (1, U "요한일서") ] |} 5
       = ret v2
    /\ parse_bible_text (U "요한일서 1:5-10") =
       (Returned [ {| book := 62; chapter := ch; start := v1; end_ := v2 |} ], []).
Proof.
  apply (@same_chapter_range_one_unit ascii_only (U "요한일서 1:5-10") _ [] 62%Z).
  - vm_compute. reflexivity.
  - exists (U "요한일서").
    split; [vm_compute; reflexivity | split; [vm_compute; reflexivity | discriminate]].
  - vm_compute. reflexivity.
  - vm_compute. reflexivity.
Defined.

Lemma failure_line_iff_empty_and_not_blank_witness :
  In (WarnParseFailed (U "시편23:1"))
     [ WarnUnknownBookSingle (U "시편2"); WarnParseFailed (U "시편23:1") ]
  <-> @nil verse = [] /\ strip (U "시편23:1") <> [].
Proof.
  apply (@failure_line_iff_empty_and_not_blank ascii_only (U "시편23:1")).
  vm_compute. reflexivity.
Defined.

Lemma leading_non_hangul_ignored_witness :
  fst (parse_bible_text (U "QT 05/02: " ++ U "시편 1:1"))
  = fst (parse_bible_text (U "시편 1:1")).
Proof.
  apply (@leading_non_hangul_ignored ascii_only).
  vm_compute. reflexivity.
Defined.

(* ================================================================= *)
(** * More on the calendar fetcher *)

Section PassOutcomes.

(** The only exception a row of the list view raises is
    [AttributeError], for a cell without its [span]. *)
Lemma list_row_outcomes tr :
  (forall sd, list_row sd tr = ret sd)
  \/ (exists dy t wk ti,
        forall sd, list_row sd tr =
                   ret (dict_set sd dy {| day := dy;
                                          bible := replace [0xA0%N] (U " ") t;
                                          week := Some wk; title := Some ti |}))
  \/ (forall sd, list_row sd tr = raise AttributeError).
Proof.
  unfold list_row.
  destruct (find tr (U "td") (Some (class_is (U "time")))) as [t|]; [|now left].
  destruct (find tr (U "td") (Some (class_is (U "name")))) as [n|]; [|now left].
  destruct (find tr (U "td") (Some (class_is (U "title")))) as [ti|]; [|now left].
  destruct (find tr (U "td") (Some (class_is (U "views")))) as [v|]; [|now left].
  right. unfold span_text.
  destruct (find t (U "span") None) as [s1|]; [|right; reflexivity].
  destruct (find n (U "span") None) as [s2|]; [|right; reflexivity].
  destruct (find ti (U "span") None) as [s3|]; [|right; reflexivity].
  left. do 4 eexists. intros sd. reflexivity.
Qed.

(** The list pass prints nothing, raises nothing but [AttributeError], and
    whether it raises does not depend on the dictionary it starts from. *)
Lemma list_rows_outcomes rows :
  forall sd,
    (exists merged, foldM list_row rows sd = (Returned merged, [])
                    /\ forall s0, exists ld, foldM list_row rows s0 = (Returned ld, []))
    \/ (forall s0, foldM list_row rows s0 = (Raised AttributeError, [])).
Proof.
  induction rows as [|tr rows IH]; simpl; intros sd.
  - left. exists sd. split; [reflexivity|]. intros s0. now exists s0.
  - destruct (list_row_outcomes tr) as [E | [(dy & t & wk & ti & E) | E]].
    + destruct (IH sd) as [(merged & H & H0) | H].
      * left. exists merged. rewrite E, bind_ret. split; [exact H|].
        intros s0. rewrite E, bind_ret. apply H0.
      * right. intros s0. rewrite E, bind_ret. apply H.
    + set (e := {| day := dy; bible := replace [0xA0%N] (U " ") t;
                   week := Some wk; title := Some ti |}) in *.
      destruct (IH (dict_set sd dy e)) as [(merged & H & H0) | H].
      * left. exists merged. rewrite E, bind_ret. split; [exact H|].
        intros s0. rewrite E, bind_ret. apply H0.
      * right. intros s0. rewrite E, bind_ret. apply H.
    + right. intros s0. now rewrite E.
Qed.

Lemma list_pass_outcomes soup sd :
  (exists merged, list_pass soup sd = (Returned merged, [])
                  /\ forall s0, exists ld, list_pass soup s0 = (Returned ld, []))
  \/ (forall s0, list_pass soup s0 = (Raised AttributeError, [])).
Proof.
  unfold list_pass. destruct (find soup _ _).
  - apply list_rows_outcomes.
  - left. exists sd. split; [reflexivity|]. intros s0. now exists s0.
Qed.

(** A row with its four cells and no [span] in one of the first three
    makes the list pass raise. *)
Lemma list_rows_raise rows tr :
  In tr rows ->
  (forall sd, list_row sd tr = raise AttributeError) ->
  forall sd, foldM list_row rows sd = (Raised AttributeError, []).
Proof.
  intros I E sd.
  destruct (list_rows_outcomes rows sd) as [(merged & H & _) | H]; [|apply H].
  exfalso. revert sd merged H.
  induction rows as [|x rows IH]; [destruct I|]. simpl. intros sd merged H.
  destruct I as [-> | I].
  - rewrite E in H. discriminate.
  - destruct (list_row_outcomes x) as [Ex | [(dy & t & wk & ti & Ex) | Ex]];
      rewrite Ex in H; try discriminate; rewrite bind_ret in H; eauto.
Qed.

(** What the passes write: a day that is not empty in the table pass, a
    reference text without non-breaking space, week and title both absent
    or both present. *)
Lemma replace_nbsp_none t : ~ In 0xA0%N (replace [0xA0%N] (U " ") t).
Proof.
  unfold replace. change (U " ") with [32%N].
  induction t as [|c t IH]; [simpl; tauto|].
  cbn [replace_from starts_with length Nat.sub].
  destruct (N.eqb_spec 0xA0 c) as [E|NE]; cbn [andb app].
  - intros [H|H]; [discriminate H | exact (IH H)].
  - intros [H|H]; [congruence | exact (IH H)].
Qed.

Lemma table_cell_written (P : str * entry -> Prop) sd cell :
  (forall dy t, dy <> [] ->
      P (dy, {| day := dy; bible := replace [0xA0%N] (U " ") t;
                week := None; title := None |})) ->
  Forall P sd -> Forall P (table_cell sd cell).
Proof.
  intros HP F. unfold table_cell.
  destruct (find cell _ _); [|exact F].
  destruct (find cell _ _); [|exact F].
  destruct (strip (text n)) eqn:E; [exact F|].
  apply dict_set_forall; [exact F|]. apply HP. discriminate.
Qed.

Lemma table_pass_written (P : str * entry -> Prop) soup sd :
  (forall dy t, dy <> [] ->
      P (dy, {| day := dy; bible := replace [0xA0%N] (U " ") t;
                week := None; title := None |})) ->
  Forall P sd -> Forall P (table_pass soup sd).
Proof.
  intros HP. unfold table_pass. destruct (find soup _ _); [|auto].
  generalize (flat_map (fun row => find_all row (U "td") None)
                       (tl (find_all n (U "tr") None))).
  intros cells. revert sd. induction cells as [|c cells IH]; simpl; auto.
  intros sd F. apply IH. now apply table_cell_written.
Qed.

Lemma list_rows_written (P : str * entry -> Prop) rows :
  (forall dy t wk ti,
      P (dy, {| day := dy; bible := replace [0xA0%N] (U " ") t;
                week := Some wk; title := Some ti |})) ->
  forall sd merged w,
    foldM list_row rows sd = (Returned merged, w) ->
    Forall P sd -> Forall P merged.
Proof.
  intros HP. induction rows as [|tr rows IH]; simpl; intros sd merged w H F.
  - now inv H.
  - destruct (list_row_outcomes tr) as [E | [(dy & t & wk & ti & E) | E]];
      rewrite E in H.
    + rewrite bind_ret in H. eauto.
    + rewrite bind_ret in H. eapply IH; [exact H|]. now apply dict_set_forall.
    + discriminate.
Qed.

Lemma list_pass_written (P : str * entry -> Prop) soup sd merged w :
  (forall dy t wk ti,
      P (dy, {| day := dy; bible := replace [0xA0%N] (U " ") t;
                week := Some wk; title := Some ti |})) ->
  list_pass soup sd = (Returned merged, w) ->
  Forall P sd -> Forall P merged.
Proof.
  intros HP. unfold list_pass. destruct (find soup _ _).
  - now apply list_rows_written.
  - intros H. now inv H.
Qed.

End PassOutcomes.

Section FetcherProperties.
Context {py : Interpreter}.

Lemma day_keys_outcomes vs :
  (exists keyed, mapM day_key vs = (Returned keyed, []))
  \/ mapM day_key vs = (Raised ValueError, []).
Proof.
  induction vs as [|e vs IH]; simpl.
  - left. now exists [].
  - destruct (int (day e)) as [z|] eqn:E.
    + assert (D : day_key e = ret (z, e)) by (unfold day_key; now rewrite E).
      rewrite D, bind_ret. destruct IH as [[keyed ->] | ->].
      * left. now exists ((z, e) :: keyed).
      * now right.
    + assert (D : day_key e = raise ValueError) by (unfold day_key; now rewrite E).
      right. now rewrite D.
Qed.

Lemma day_keys_raise vs :
  (exists e, In e vs /\ int (day e) = None) ->
  mapM day_key vs = (Raised ValueError, []).
Proof.
  intros (e & I & N).
  destruct (day_keys_outcomes vs) as [[keyed H] | H]; [|exact H].
  exfalso. apply day_keys_returned in H as [<- F].
  apply in_map_iff in I as (p & <- & Ip).
  rewrite Forall_forall in F. rewrite (F p Ip) in N. discriminate.
Qed.

Lemma bind_silent A B (a : A) (f : A -> M B) : bind (Returned a, []) f = f a.
Proof. apply bind_ret. Qed.

Lemma schedule_of_outcomes soup :
  (exists l, schedule_of soup = (Returned l, []))
  \/ schedule_of soup = (Raised AttributeError, [])
  \/ schedule_of soup = (Raised ValueError, []).
Proof.
  unfold schedule_of.
  destruct (list_pass_outcomes soup (table_pass soup [])) as [(merged & -> & _) | ->].
  - rewrite bind_silent.
    destruct (day_keys_outcomes (values merged)) as [[keyed ->] | ->].
    + left. rewrite bind_silent. eexists. reflexivity.
    + right. now right.
  - right. now left.
Qed.

(** X6.  The schedule is the records of the list pass laid over those of
    the table pass: a record is in the schedule exactly when it is the
    list-pass record of its day, or its day has no list-pass record and
    it is the table-pass record of its day.  So a day that only the
    table view shows keeps its record without week and title. *)
Theorem schedule_is_list_pass_over_table_pass
        {world : World} year month page soup l log :
  requests_get year month = Some page ->
  BeautifulSoup page = Returned soup ->
  get_qt_schedule year month = (Returned (Some l), log) ->
  exists ld,
    list_pass soup [] = (Returned ld, [])
    /\ forall e,
        In e l <->
        dict_get ld (day e) = Some e
        \/ (dict_get ld (day e) = None
            /\ dict_get (table_pass soup []) (day e) = Some e).
Proof.
  intros Hreq Hsoup Hs.
  apply get_qt_schedule_returned in Hs as (page' & soup' & Hreq' & Hsoup' & Hs).
  rewrite Hreq in Hreq'. injection Hreq' as Ep. subst page'.
  rewrite Hsoup in Hsoup'. injection Hsoup' as Es. subst soup'.
  apply schedule_of_returned in Hs as (merged & w1 & sorted & Hm & P & _ & _ & ->).
  destruct (merged_well_formed _ _ _ Hm) as [N K].
  destruct (list_pass_outcomes soup (table_pass soup [])) as [(m' & _ & H0) | H0];
    [|rewrite H0 in Hm; discriminate].
  destruct (H0 []) as [ld Hl]. exists ld. split; [exact Hl|].
  intros e.
  assert (G : In e (map snd sorted) <-> dict_get merged (day e) = Some e).
  { split.
    - intros I. apply (Permutation_in _ P) in I. unfold values in I.
      apply in_map_iff in I as ([k e'] & E & I). simpl in E. subst e'.
      rewrite Forall_forall in K. pose proof (K _ I) as Kk. simpl in Kk.
      rewrite Kk. now apply dict_get_of_in.
    - intros D. apply (Permutation_in _ (Permutation_sym P)). unfold values.
      apply in_map_iff. exists (day e, e). split; [reflexivity|].
      now apply dict_get_in. }
  rewrite G, (list_pass_merge _ _ _ _ _ _ Hm Hl (day e)).
  destruct (dict_get ld (day e)) as [e'|]; split.
  - intros H. now left.
  - intros [H | [H _]]; [exact H | discriminate].
  - intros H. right. now split.
  - intros [H | [_ H]]; [discriminate | exact H].
Qed.

(** X7.  In every schedule returned, each record has a day text that is
    not empty and that [int] reads as a number, a reference text without
    non-breaking space, and its week and title either both present (a
    record of the list view) or both absent (a record of the table
    view). *)
Theorem schedule_records_normalised {world : World} year month l log :
  get_qt_schedule year month = (Returned (Some l), log) ->
  Forall (fun e => day e <> []
                   /\ (exists z, int (day e) = Some z)
                   /\ ~ In 0xA0%N (bible e)
                   /\ (week e = None <-> title e = None)) l.
Proof.
  intros Hs.
  apply get_qt_schedule_returned in Hs as (page & soup & _ & _ & Hs).
  apply schedule_of_returned in Hs as (merged & w1 & sorted & Hm & P & F & _ & ->).
  assert (W : Forall (fun kv : str * entry =>
                        ~ In 0xA0%N (bible (snd kv))
                        /\ (week (snd kv) = None <-> title (snd kv) = None)) merged).
  { eapply list_pass_written; [| exact Hm |].
    - intros dy t wk ti. simpl. split; [apply replace_nbsp_none|].
      split; discriminate.
    - apply table_pass_written; [|constructor].
      intros dy t _. simpl. split; [apply replace_nbsp_none | tauto]. }
  apply Forall_forall. intros e I.
  assert (Z0 : exists z, int (day e) = Some z).
  { apply in_map_iff in I as (p & <- & Ip).
    rewrite Forall_forall in F. eauto. }
  apply (Permutation_in _ P) in I. unfold values in I.
  apply in_map_iff in I as ([k e'] & E & I). simpl in E. subst e'.
  rewrite Forall_forall in W. destruct (W _ I) as [W1 W2]. simpl in *.
  repeat split; auto; try tauto.
  destruct Z0 as [z Hz]. intros D. rewrite D in Hz. discriminate Hz.
Qed.

(** X8.  [get_qt_schedule] prints the fetch error and returns [None]
    when the request fails.  Otherwise the document is parsed outside the
    [try]: an exception of the HTML parser leaves the function as it is,
    with nothing printed; and when the parser builds a tree the function
    prints nothing and returns a list, or raises [AttributeError], or
    raises [ValueError]. *)
Theorem get_qt_schedule_outcomes {world : World} year month :
  match requests_get year month with
  | None => get_qt_schedule year month = (Returned None, [ErrFetch year month])
  | Some page =>
      match BeautifulSoup page with
      | Raised e => get_qt_schedule year month = (Raised e, [])
      | Returned soup =>
          (exists l, schedule_of soup = (Returned l, [])
                     /\ get_qt_schedule year month = (Returned (Some l), []))
          \/ get_qt_schedule year month = (Raised AttributeError, [])
          \/ get_qt_schedule year month = (Raised ValueError, [])
      end
  end.
Proof.
  unfold get_qt_schedule. destruct (requests_get year month) as [page|].
  - destruct (BeautifulSoup page) as [soup|e]; [|reflexivity].
    change (lift (Returned soup)) with (ret soup). rewrite bind_ret.
    destruct (schedule_of_outcomes soup) as [[l H] | [-> | ->]].
    + left. exists l. split; [exact H|]. now rewrite H, bind_silent.
    + right. now left.
    + right. now right.
  - reflexivity.
Qed.

(** X9.  When the two passes leave a record whose day text [int] does not
    read as a number (a blank day cell in the list view, for one), the
    sort raises [ValueError] and no schedule is returned, whatever the
    other records are. *)
Theorem non_numeric_day_raises soup merged w :
  list_pass soup (table_pass soup []) = (Returned merged, w) ->
  (exists e, In e (values merged) /\ int (day e) = None) ->
  schedule_of soup = (Raised ValueError, w).
Proof.
  intros Hm Hn. unfold schedule_of. rewrite Hm.
  unfold bind at 1. cbv beta.
  rewrite (day_keys_raise _ Hn). simpl. now rewrite app_nil_r.
Qed.

(** X10.  When a row of the list view has its four cells and the cell of
    the day, of the week or of the title holds no [span], the fetch
    raises [AttributeError] and no schedule is returned, even if the
    table view was read in full. *)
Theorem row_without_span_raises soup list_view tr t n ti v :
  find soup (U "div") (Some (class_is (U "calendar-list"))) = Some list_view ->
  In tr (find_all list_view (U "tr") (Some class_has_person)) ->
  find tr (U "td") (Some (class_is (U "time"))) = Some t ->
  find tr (U "td") (Some (class_is (U "name"))) = Some n ->
  find tr (U "td") (Some (class_is (U "title"))) = Some ti ->
  find tr (U "td") (Some (class_is (U "views"))) = Some v ->
  find t (U "span") None = None \/ find n (U "span") None = None
  \/ find ti (U "span") None = None ->
  schedule_of soup = (Raised AttributeError, []).
Proof.
  intros Hl I Ht Hn Hti Hv Hs.
  assert (E : forall sd, list_row sd tr = raise AttributeError).
  { intros sd. unfold list_row. rewrite Ht, Hn, Hti, Hv. unfold span_text.
    destruct (find t (U "span") None); [|reflexivity].
    destruct (find n (U "span") None); [|reflexivity].
    destruct (find ti (U "span") None); [|reflexivity].
    destruct Hs as [H | [H | H]]; discriminate H. }
  unfold schedule_of, list_pass. rewrite Hl.
  now rewrite (list_rows_raise _ _ I E).
Qed.

End FetcherProperties.

Lemma schedule_is_list_pass_over_table_pass_witness :
  exists ld,
    list_pass padded_days_soup [] = (Returned ld, [])
    /\ forall e,
        In e [ {| day := U "1"; bible := U "시편 1:1"; week := None; title := None |};
               {| day := U "01"; bible := U "시편 1:1~6";
                  week := Some (U "Thu"); title := Some (U "Blessed") |};
               {| day := U "2"; bible := U "시편 2:1~12";
                  week := Some (U "Fri"); title := Some (U "The King") |} ] <->
        dict_get ld (day e) = Some e
        \/ (dict_get ld (day e) = None
            /\ dict_get (table_pass padded_days_soup []) (day e) = Some e).
Proof.
  apply (@schedule_is_list_pass_over_table_pass ascii_only example_world
           2025%Z 5%Z padded_days_soup padded_days_soup _ []).
  - reflexivity.
  - reflexivity.
  - vm_compute. reflexivity.
Defined.

Lemma schedule_records_normalised_witness :
  Forall (fun e => day e <> []
                   /\ (exists z, int (day e) = Some z)
                   /\ ~ In 0xA0%N (bible e)
                   /\ (week e = None <-> title e = None))
         [ {| day := U "1"; bible := U "시편 1:1"; week := None; title := None |};
           {| day := U "01"; bible := U "시편 1:1~6";
              week := Some (U "Thu"); title := Some (U "Blessed") |};
           {| day := U "2"; bible := U "시편 2:1~12";
              week := Some (U "Fri"); title := Some (U "The King") |} ].
Proof.
  apply (@schedule_records_normalised ascii_only example_world 2025%Z 5%Z _ []).
  vm_compute. reflexivity.
Defined.

Lemma non_numeric_day_raises_witness :
  schedule_of blank_day_soup = (Raised ValueError, []).
Proof.
  apply (@non_numeric_day_raises ascii_only blank_day_soup
           [ ([], {| day := []; bible := U "시편 1:1~6";
                     week := Some (U "Thu"); title := Some (U "Blessed") |}) ] []).
  - vm_compute. reflexivity.
  - eexists. split; [left; reflexivity | vm_compute; reflexivity].
Defined.

Lemma row_without_span_raises_witness :
  schedule_of spanless_soup = (Raised AttributeError, []).
Proof.
  apply (@row_without_span_raises ascii_only spanless_soup
           (Tag (U "div") (Some [U "calendar-list"])
              [ Tag (U "tr") (Some [U "person"])
                  [ Tag (U "td") (Some [U "time"]) [NavigableString (U "1")];
                    Tag (U "td") (Some [U "name"]) [ Tag (U "span") None [NavigableString (U "Thu")] ];
                    Tag (U "td") (Some [U "title"]) [ Tag (U "span") None [NavigableString (U "Blessed")] ];
                    Tag (U "td") (Some [U "views"]) [NavigableString (U "시편 1:1~6")] ] ])
           (Tag (U "tr") (Some [U "person"])
              [ Tag (U "td") (Some [U "time"]) [NavigableString (U "1")];
                Tag (U "td") (Some [U "name"]) [ Tag (U "span") None [NavigableString (U "Thu")] ];
                Tag (U "td") (Some [U "title"]) [ Tag (U "span") None [NavigableString (U "Blessed")] ];
                Tag (U "td") (Some [U "views"]) [NavigableString (U "시편 1:1~6")] ])
           (Tag (U "td") (Some [U "time"]) [NavigableString (U "1")])
           (Tag (U "td") (Some [U "name"]) [ Tag (U "span") None [NavigableString (U "Thu")] ])
           (Tag (U "td") (Some [U "title"]) [ Tag (U "span") None [NavigableString (U "Blessed")] ])
           (Tag (U "td") (Some [U "views"]) [NavigableString (U "시편 1:1~6")])).
  - vm_compute. reflexivity.
  - vm_compute. left. reflexivity.
  - vm_compute. reflexivity.
  - vm_compute. reflexivity.
  - vm_compute. reflexivity.
  - vm_compute. reflexivity.
  - left. vm_compute. reflexivity.
Defined.

(* ================================================================= *)
(** * More on the date resolver and the endpoint *)

Section ResolverOutcomes.
Context {py : Interpreter} {world : World}.

Lemma parse_units_bounded text units log :
  parse_bible_text text = (Returned units, log) ->
  Forall unit_in_table units /\ length units <= 2.
Proof.
  intros H.
  assert (B : forall m bk, resolves m bk -> (1 <= bk <= 66)%Z).
  { intros m bk (name & _ & L & _). now apply lookup_book_range in L. }
  destruct (parse_cases text)
    as [(pre & m & post & names & bk & c1 & v1 & c2 & v2 & _ & _ & R & P & E)
       | [(names & pre & m & post & names' & bk & ch & v & _ & _ & _ & R & P & E)
         | [(names & names' & _ & _ & E) | [log' E]]]];
    rewrite E in H; inv H.
  - apply B in R. unfold range_units.
    destruct (negb (c1 =? c2)%Z); (split; [repeat constructor; simpl; lia | simpl; lia]).
  - apply B in R. split; [repeat constructor; simpl; lia | simpl; lia].
  - split; [constructor | simpl; lia].
Qed.

Lemma parse_nothing : parse_bible_text [] = (Returned [], []).
Proof. reflexivity. Qed.

(** What [next] finds in a schedule whose day texts are all numbers. *)
Lemma next_bible_find l d :
  Forall (fun e => exists z, int (day e) = Some z) l ->
  next_bible l d = ret (option_map bible (List.find (is_day d) l)).
Proof.
  induction 1 as [|e l [z Hz] _ IH]; simpl; [reflexivity|].
  unfold is_day at 1. rewrite Hz. destruct (z =? d)%Z; [reflexivity | exact IH].
Qed.

Lemma schedule_days_numeric year month l w :
  get_qt_schedule year month = (Returned (Some l), w) ->
  Forall (fun e => exists z, int (day e) = Some z) l.
Proof.
  intros Hs.
  apply get_qt_schedule_returned in Hs as (page & soup & _ & _ & Hs).
  apply schedule_of_returned in Hs as (merged & w1 & sorted & _ & _ & F & _ & ->).
  apply Forall_forall. intros e I.
  apply in_map_iff in I as (p & <- & Ip).
  rewrite Forall_forall in F. eauto.
Qed.

(** The body of the [try], when it returns, returns nothing or what the
    parser returned for a reference text. *)
Lemma resolve_date_returned timestamp_ms timezone_str units log :
  resolve_date timestamp_ms timezone_str = (Returned units, log) ->
  units = [] \/ exists b w, parse_bible_text b = (Returned units, w).
Proof.
  unfold resolve_date. intros H.
  apply bind_returned in H as (dt_utc & w1 & w2 & _ & H & _).
  apply bind_returned in H as (tz & w3 & w4 & _ & H & _).
  apply bind_returned in H as (dt & w5 & w6 & _ & H & _).
  destruct (civil dt) as [[y mo] d].
  apply bind_returned in H as (sched & w7 & w8 & _ & H & _).
  destruct sched as [[|e l]|]; try (inv H; now left).
  apply bind_returned in H as (b & w9 & w10 & _ & H & _).
  destruct b as [[|c b]|]; try (inv H; now left).
  right. eauto.
Qed.

(** Whatever the body of the [try] does, the resolver returns: nothing,
    or what the parser returned for a reference text. *)
Lemma resolver_returns_parsed timestamp_ms timezone_str :
  exists units log,
    timestamp_to_qt_data_ms timestamp_ms timezone_str = (Returned units, log)
    /\ (units = [] \/ exists b w, parse_bible_text b = (Returned units, w)).
Proof.
  unfold timestamp_to_qt_data_ms, try_except.
  destruct (resolve_date timestamp_ms timezone_str) as [[units|e] w] eqn:E.
  - exists units, w. split; [reflexivity|].
    now apply resolve_date_returned in E.
  - destruct e; simpl; do 2 eexists; (split; [reflexivity | now left]).
Qed.

(** How [get_qt_schedule] raises: with nothing printed, and never the
    exception of an unknown zone. *)
Lemma get_qt_schedule_raised year month e w :
  get_qt_schedule year month = (Raised e, w) ->
  w = [] /\ e <> UnknownTimeZoneError.
Proof.
  unfold get_qt_schedule.
  destruct (requests_get year month) as [page|]; [|discriminate].
  pose proof (BeautifulSoup_raises page) as NZ.
  destruct (BeautifulSoup page) as [soup|e'].
  - change (lift (Returned soup)) with (ret soup). rewrite bind_ret.
    destruct (schedule_of_outcomes soup) as [[l ->] | [-> | ->]]; simpl;
      intros H; inv H; split; auto; discriminate.
  - intros H. inv H. split; [reflexivity | congruence].
Qed.

(** X11.  Whenever [timestamp_to_qt_data_ms] returns, whatever the
    timestamp, the zone name, the answer of the site and the document,
    it returns a list of at most two units, each with a book in 1..66
    and a chapter and verses that are not negative. *)
Theorem resolver_returns_bounded_units timestamp_ms timezone_str units log :
  timestamp_to_qt_data_ms timestamp_ms timezone_str = (Returned units, log) ->
  Forall unit_in_table units /\ length units <= 2.
Proof.
  intros H.
  destruct (resolver_returns_parsed timestamp_ms timezone_str)
    as (units' & log' & R & Pu).
  rewrite R in H. inv H.
  destruct Pu as [-> | (b & w & P)].
  - split; [constructor | simpl; lia].
  - now apply parse_units_bounded in P.
Qed.

(** X12.  When the timestamp converts, the zone is known and the schedule
    of the month is returned, the resolver reads the reference text of
    the first record whose day text denotes the day of the month: it
    returns what the parser returns for it, with what the parser printed;
    when the parser raises (on a number beyond the limit of [int]) it
    returns the empty list after the line of the unexpected error; and it
    returns the empty list when no record denotes that day. *)
Theorem resolver_reads_first_record_of_the_day
        timestamp_ms timezone_str dt_utc target dt year month today l w :
  fromtimestamp_utc timestamp_ms = Returned dt_utc ->
  pytz_timezone timezone_str = Some target ->
  astimezone dt_utc target = Returned dt ->
  civil dt = (year, month, today) ->
  get_qt_schedule year month = (Returned (Some l), w) ->
  timestamp_to_qt_data_ms timestamp_ms timezone_str =
  match List.find (is_day today) l with
  | Some e =>
      match parse_bible_text (bible e) with
      | (Returned units, w') => (Returned units, w ++ w')
      | (Raised _, w') => (Returned [], (w ++ w') ++ [ErrUnexpected ValueError])
      end
  | None => (Returned [], w)
  end.
Proof.
  intros H1 H2 H3 H4 Hs.
  pose proof (schedule_days_numeric _ _ _ _ Hs) as F.
  unfold timestamp_to_qt_data_ms, resolve_date, lift.
  rewrite H1, bind_silent, H2, bind_ret, H3, bind_silent, H4, Hs.
  unfold bind at 1.
  destruct l as [|e0 l0].
  - simpl. now rewrite app_nil_r.
  - rewrite (next_bible_find _ today F), bind_ret.
    destruct (List.find (is_day today) (e0 :: l0)) as [e|]; simpl.
    + destruct (bible e) as [|c b] eqn:B.
      * rewrite parse_nothing. reflexivity.
      * destruct (parse_outcomes (c :: b)) as [(units & w' & P) | (w' & P)];
          rewrite P; reflexivity.
    + now rewrite app_nil_r.
Qed.

(** X13.  When the timestamp converts and the zone is known, a failed
    request makes the resolver return the empty list after the line of
    the fetch error, and an exception raised while the document is read
    makes it return the empty list after the line of the unexpected
    error. *)
Theorem resolver_absorbs_fetch_errors
        timestamp_ms timezone_str dt_utc target dt year month today :
  fromtimestamp_utc timestamp_ms = Returned dt_utc ->
  pytz_timezone timezone_str = Some target ->
  astimezone dt_utc target = Returned dt ->
  civil dt = (year, month, today) ->
  (requests_get year month = None ->
   timestamp_to_qt_data_ms timestamp_ms timezone_str
   = (Returned [], [ErrFetch year month]))
  /\ (forall e w,
         get_qt_schedule year month = (Raised e, w) ->
         timestamp_to_qt_data_ms timestamp_ms timezone_str
         = (Returned [], [ErrUnexpected e])).
Proof.
  intros H1 H2 H3 H4. split.
  - intros Hr. unfold timestamp_to_qt_data_ms, resolve_date, lift.
    rewrite H1, bind_silent, H2, bind_ret, H3, bind_silent, H4.
    unfold get_qt_schedule. rewrite Hr. reflexivity.
  - intros e w Hs. unfold timestamp_to_qt_data_ms, resolve_date, lift.
    rewrite H1, bind_silent, H2, bind_ret, H3, bind_silent, H4, Hs.
    destruct (get_qt_schedule_raised _ _ _ _ Hs) as [-> NZ].
    destruct e; try reflexivity. now destruct NZ.
Qed.

(** X14.  [get_qt_bible_data] always answers, with status 200 or 400.
    The status is 200 exactly when the timestamp parameter is present
    and [int] reads it as a number and the zone (Asia/Seoul when the
    parameter is absent) is known.  A body of units is never empty: an
    empty result is answered with the no-data message; the units have a
    book in 1..66 and there are at most two. *)
Theorem endpoint_answers timestamp_ms timezone :
  exists body status log,
    get_qt_bible_data timestamp_ms timezone = (Returned (body, status), log)
    /\ (status = 200%Z \/ status = 400%Z)
    /\ (status = 200%Z <->
        exists ts z,
          timestamp_ms = Some ts /\ int ts = Some z
          /\ pytz_timezone (match timezone with
                            | Some tz => tz
                            | None => U "Asia/Seoul"
                            end) <> None)
    /\ match body with
       | Data l => status = 200%Z /\ l <> [] /\ Forall unit_in_table l /\ length l <= 2
       | MessageNoData => status = 200%Z
       | _ => status = 400%Z
       end.
Proof.
  unfold get_qt_bible_data.
  set (tz := match timezone with Some tz => tz | None => U "Asia/Seoul" end).
  destruct timestamp_ms as [[|c t]|].
  - do 3 eexists. split; [reflexivity|]. split; [now right|]. split; [|reflexivity].
    split; [discriminate|]. intros (ts & z & E & I & _). inv E. discriminate I.
  - destruct (int (c :: t)) as [z|] eqn:I.
    + destruct (pytz_timezone tz) as [target|] eqn:P.
      * destruct (resolver_returns_parsed z tz) as (units & log & R & Pu).
        assert (BL : Forall unit_in_table units /\ length units <= 2).
        { destruct Pu as [-> | (b & w & Pb)];
            [split; [constructor | simpl; lia] | now apply parse_units_bounded in Pb]. }
        destruct BL as [B L]. clear Pu.
        rewrite R, bind_silent || (unfold bind; rewrite R).
        destruct units as [|u units].
        -- do 3 eexists. split; [simpl; rewrite app_nil_r; reflexivity|].
           split; [now left|]. split; [|reflexivity].
           split; [|reflexivity]. intros _. exists (c :: t), z.
           repeat split; auto. discriminate.
        -- do 3 eexists. split; [simpl; rewrite app_nil_r; reflexivity|].
           split; [now left|]. split.
           ++ split; [|reflexivity]. intros _. exists (c :: t), z.
              repeat split; auto. discriminate.
           ++ repeat split; auto. discriminate.
      * do 3 eexists. split; [reflexivity|]. split; [now right|].
        split; [|reflexivity].
        split; [discriminate|]. intros (ts & z' & E & _ & N). now destruct N.
    + do 3 eexists. split; [reflexivity|]. split; [now right|].
      split; [|reflexivity].
      split; [discriminate|]. intros (ts & z & E & I' & _). inv E. congruence.
  - do 3 eexists. split; [reflexivity|]. split; [now right|]. split; [|reflexivity].
    split; [discriminate|]. intros (ts & z & E & _). discriminate E.
Qed.

End ResolverOutcomes.

Lemma resolver_returns_bounded_units_witness :
  let units := [ {| book := 19; chapter := 2; start := 1; end_ := 12 |} ] in
  Forall unit_in_table units /\ length units <= 2.
Proof.
  intros units.
  apply (@resolver_returns_bounded_units ascii_only example_world
           1746144000000%Z (U "Asia/Seoul") units []).
  vm_compute. reflexivity.
Defined.

Lemma resolver_reads_first_record_of_the_day_witness :
  timestamp_to_qt_data_ms (py := ascii_only) (world := example_world)
                          1746144000000%Z (U "Asia/Seoul") =
  match List.find (is_day 2%Z)
          [ {| day := U "1"; bible := U "시편 1:1"; week := None; title := None |};
            {| day := U "01"; bible := U "시편 1:1~6";
               week := Some (U "Thu"); title := Some (U "Blessed") |};
            {| day := U "2"; bible := U "시편 2:1~12";
               week := Some (U "Fri"); title := Some (U "The King") |} ] with
  | Some e =>
      match parse_bible_text (bible e) with
      | (Returned units, w') => (Returned units, [] ++ w')
      | (Raised _, w') => (Returned [], ([] ++ w') ++ [ErrUnexpected ValueError])
      end
  | None => (Returned [], [])
  end.
Proof.
  apply (@resolver_reads_first_record_of_the_day ascii_only example_world
           1746144000000%Z (U "Asia/Seoul") 1746144000000%Z (U "Asia/Seoul")
           1746144000000%Z 2025%Z 5%Z 2%Z).
  - reflexivity.
  - vm_compute. reflexivity.
  - reflexivity.
  - reflexivity.
  - vm_compute. reflexivity.
Defined.

Example parser_rejection_leaves_fetcher :
  get_qt_schedule (py := ascii_only) (world := rejecting_world) 2025%Z 5%Z
  = (Raised ParserRejectedMarkup, []).
Proof. reflexivity. Qed.

Example parser_rejection_absorbed_by_resolver :
  timestamp_to_qt_data_ms (py := ascii_only) (world := rejecting_world)
                          1746144000000%Z (U "UTC")
  = (Returned [], [ErrUnexpected ParserRejectedMarkup]).
Proof. reflexivity. Qed.

Example long_number_absorbed_by_resolver :
  timestamp_to_qt_data_ms (py := ascii_only)
                          (world := world_answering (Some long_number_soup))
                          1746144000000%Z (U "UTC")
  = (Returned [], [ErrUnexpected ValueError]).
Proof. vm_compute. reflexivity. Qed.

Lemma resolver_absorbs_fetch_errors_witness :
  (timestamp_to_qt_data_ms (py := ascii_only) (world := world_answering None)
                           1746144000000%Z (U "UTC")
   = (Returned [], [ErrFetch 2025 5]))
  /\ (timestamp_to_qt_data_ms (py := ascii_only)
                              (world := world_answering (Some blank_day_soup))
                              1746144000000%Z (U "UTC")
      = (Returned [], [ErrUnexpected ValueError])).
Proof.
  split.
  - apply (proj1 (@resolver_absorbs_fetch_errors ascii_only (world_answering None)
                    1746144000000%Z (U "UTC") 1746144000000%Z (U "UTC")
                    1746144000000%Z 2025%Z 5%Z 2%Z
                    eq_refl eq_refl eq_refl eq_refl)).
    reflexivity.
  - apply (proj2 (@resolver_absorbs_fetch_errors ascii_only
                    (world_answering (Some blank_day_soup))
                    1746144000000%Z (U "UTC") 1746144000000%Z (U "UTC")
                    1746144000000%Z 2025%Z 5%Z 2%Z
                    eq_refl eq_refl eq_refl eq_refl) ValueError []).
    vm_compute. reflexivity.
Defined.
